(** * The client-side proxy core of Ice: [cpp/src/Ice/Proxy.cpp]

    A shallow embedding of the proxy operations of [Proxy.cpp]: the
    copy-on-write derivations ([ice_identity], [ice_facet], [ice_secure],
    ...), the built-in operations of the C++98 and of the C++11 mapping, the
    request-handler slot ([__setRequestHandler], [__updateRequestHandler]),
    the retry classification ([__handleException]), the identity
    comparators and [checkedCastImpl].

    Proxies are objects in a heap and a proxy handle is an address (or
    null), so that "returns the same handle" is equality of addresses.
    Methods are computations over the heap that return, raise a C++
    exception, or abort (a null dereference or a failed [assert]). *)

From stdpp Require Import base strings gmap list option pretty.
From Stdlib Require Import ZArith.
From Stdlib.Strings Require Import Byte.

Local Open Scope Z_scope.

(** ** Exceptions *)

(** The exception classes this file throws, catches or tests with
    [dynamic_cast].  Their declarations ([LocalException.h],
    [IceUtil/Exception.h]) are not part of the file; the classes under
    [LocalException] are the ones the file itself treats as such (it
    catches [FacetNotExistException] and [CommunicatorDestroyedException],
    and retries [CloseConnectionException] and [ObjectNotExistException],
    only below the test for [LocalException]). *)
Inductive LocalException :=
  | IllegalIdentityException
  | TwowayOnlyException (operation : string)
  | UnknownUserException (unknown : string)
  | CloseConnectionException
  | ObjectNotExistException
  | FacetNotExistException
  | CommunicatorDestroyedException
  | ConnectTimeoutException
  | OtherLocalException (ice_id : string).

Inductive Exception :=
  | IllegalArgumentException (reason : string) (* IceUtil::IllegalArgumentException *)
  | UserException (ice_id : string)
  | SystemException (what : string)
  | Local (e : LocalException).

#[global] Instance LocalException_eq_dec : EqDecision LocalException.
Proof. solve_decision. Defined.
#[global] Instance Exception_eq_dec : EqDecision Exception.
Proof. solve_decision. Defined.

(** [dynamic_cast<const LocalException*>(&ex)] *)
Definition cast_LocalException (ex : Exception) : option LocalException :=
  match ex with Local e => Some e | _ => None end.

(** [dynamic_cast<const CloseConnectionException*>(&ex)], as a truth value *)
Definition is_CloseConnectionException (ex : Exception) : bool :=
  match ex with Local CloseConnectionException => true | _ => false end.

(** [dynamic_cast<const ObjectNotExistException*>(&ex)], as a truth value *)
Definition is_ObjectNotExistException (ex : Exception) : bool :=
  match ex with Local ObjectNotExistException => true | _ => false end.

(** ** Outcomes and computations *)

(** What running a piece of C++ over a state [S] ends in. *)
Inductive Outcome (S A : Type) :=
  | Return (a : A) (s : S)
  | Raise (e : Exception) (s : S)
  | Abort.
Arguments Return {S A} a s.
Arguments Raise {S A} e s.
Arguments Abort {S A}.

Definition Comp (S A : Type) : Type := S -> Outcome S A.

Definition ret {S A} (a : A) : Comp S A := fun s => Return a s.
Definition throw {S A} (e : Exception) : Comp S A := fun s => Raise e s.
Definition abort {S A} : Comp S A := fun _ => Abort.
Definition bind {S A B} (m : Comp S A) (k : A -> Comp S B) : Comp S B :=
  fun s => match m s with
           | Return a s' => k a s'
           | Raise e s' => Raise e s'
           | Abort => Abort
           end.
(** [try { m } catch(...) { handler }]: [handler e] is [None] when no
    catch clause matches [e]. *)
Definition try_catch {S A} (m : Comp S A) (handler : Exception -> option (Comp S A))
  : Comp S A :=
  fun s => match m s with
           | Raise e s' => match handler e with
                           | Some h => h s'
                           | None => Raise e s'
                           end
           | o => o
           end.
Definition get_state {S} : Comp S S := fun s => Return s s.
Definition put_state {S} (s : S) : Comp S unit := fun _ => Return tt s.

Declare Scope comp_scope.
Delimit Scope comp_scope with comp.
Notation "x <- m ;; k" := (bind m (fun x => k))
  (at level 100, m at next level, right associativity) : comp_scope.
Notation "m ;;; k" := (bind m (fun _ => k))
  (at level 100, right associativity) : comp_scope.
Local Open Scope comp_scope.

(** ** The Reference value *)

Inductive Mode :=
  ModeTwoway | ModeOneway | ModeBatchOneway | ModeDatagram | ModeBatchDatagram.
Inductive OperationMode := Normal | Nonmutating | Idempotent.
Inductive EndpointSelectionType := Random | Ordered.

Record Identity := { name : string; category : string }.
Record EncodingVersion := { major : Z; minor : Z }.

(** [Ice::Context] is a [std::map<string, string>]. *)
Abbreviation Context := (gmap string string).

(** An endpoint descriptor; the proxy only copies and compares them. *)
Definition Endpoint : Type := string.

(** Router and locator proxies are handles of proxies of their own. *)
Definition RouterPrxPtr : Type := option nat.
Definition LocatorPrxPtr : Type := option nat.
Record RouterInfo := { getRouter : nat }.
Record LocatorInfo := { getLocator : nat }.

#[global] Instance Mode_eq_dec : EqDecision Mode.
Proof. solve_decision. Defined.
#[global] Instance OperationMode_eq_dec : EqDecision OperationMode.
Proof. solve_decision. Defined.
#[global] Instance EndpointSelectionType_eq_dec : EqDecision EndpointSelectionType.
Proof. solve_decision. Defined.
#[global] Instance Identity_eq_dec : EqDecision Identity.
Proof. solve_decision. Defined.
#[global] Instance EncodingVersion_eq_dec : EqDecision EncodingVersion.
Proof. solve_decision. Defined.
#[global] Instance RouterInfo_eq_dec : EqDecision RouterInfo.
Proof. solve_decision. Defined.
#[global] Instance LocatorInfo_eq_dec : EqDecision LocatorInfo.
Proof. solve_decision. Defined.

(** Modelled from the spec: the Reference class ([Reference.h],
    [Reference.cpp]) is not part of the file.  Its attributes are the ones
    of the spec's data model, read through the getters [Proxy.cpp] calls;
    [getTimeout] is the connection timeout that [ice_timeout] overrides and
    [getCompress] the optional compression override. *)
Record Reference := {
  getIdentity : Identity;
  getFacet : string;
  getMode : Mode;
  getSecure : bool;
  getPreferSecure : bool;
  getEncoding : EncodingVersion;
  getCompress : option bool;
  getContext : Context;
  getEndpoints : list Endpoint;
  getAdapterId : string;
  getLocatorInfo : option LocatorInfo;
  getRouterInfo : option RouterInfo;
  getCacheConnection : bool;
  getCollocationOptimized : bool;
  getEndpointSelection : EndpointSelectionType;
  getLocatorCacheTimeout : Z;
  getInvocationTimeout : Z;
  getConnectionId : string;
  getTimeout : option Z
}.

#[global] Instance Reference_eq_dec : EqDecision Reference.
Proof. solve_decision. Defined.

(** A Reference is immutable and [==] on two Reference handles compares
    the References (the proxy operators [==] and [<] of the file are this
    comparison), so a proxy holds its Reference by value.  [Int] arguments
    are integers of [Z]; the file only compares and prints them. *)

(** Modelled from the spec: the mutators of the Reference class, which is
    not part of the file.  Each one compares the new value with the current
    one, returns the Reference unchanged when they are equal and otherwise a
    Reference that shares every other attribute.  Changing the endpoints or
    the adapter id clears the other; changing the router or the locator
    stores the resolved info handle, null for a null proxy.  The range
    checks on the arguments are the ones the proxy makes before the call. *)
Definition changeIdentity (r : Reference) (newIdentity : Identity) : Reference :=
  if bool_decide (newIdentity = getIdentity r) then r else
  let '(Build_Reference _ f m s ps e c ctx eps ad li ri cc co es lct it cid t) := r in
  Build_Reference newIdentity f m s ps e c ctx eps ad li ri cc co es lct it cid t.

Definition changeFacet (r : Reference) (newFacet : string) : Reference :=
  if bool_decide (newFacet = getFacet r) then r else
  let '(Build_Reference i _ m s ps e c ctx eps ad li ri cc co es lct it cid t) := r in
  Build_Reference i newFacet m s ps e c ctx eps ad li ri cc co es lct it cid t.

Definition changeMode (r : Reference) (newMode : Mode) : Reference :=
  if bool_decide (newMode = getMode r) then r else
  let '(Build_Reference i f _ s ps e c ctx eps ad li ri cc co es lct it cid t) := r in
  Build_Reference i f newMode s ps e c ctx eps ad li ri cc co es lct it cid t.

Definition changeSecure (r : Reference) (newSecure : bool) : Reference :=
  if bool_decide (newSecure = getSecure r) then r else
  let '(Build_Reference i f m _ ps e c ctx eps ad li ri cc co es lct it cid t) := r in
  Build_Reference i f m newSecure ps e c ctx eps ad li ri cc co es lct it cid t.

Definition changePreferSecure (r : Reference) (newPreferSecure : bool) : Reference :=
  if bool_decide (newPreferSecure = getPreferSecure r) then r else
  let '(Build_Reference i f m s _ e c ctx eps ad li ri cc co es lct it cid t) := r in
  Build_Reference i f m s newPreferSecure e c ctx eps ad li ri cc co es lct it cid t.

Definition changeEncoding (r : Reference) (newEncoding : EncodingVersion) : Reference :=
  if bool_decide (newEncoding = getEncoding r) then r else
  let '(Build_Reference i f m s ps _ c ctx eps ad li ri cc co es lct it cid t) := r in
  Build_Reference i f m s ps newEncoding c ctx eps ad li ri cc co es lct it cid t.

Definition changeCompress (r : Reference) (newCompress : bool) : Reference :=
  if bool_decide (Some newCompress = getCompress r) then r else
  let '(Build_Reference i f m s ps e _ ctx eps ad li ri cc co es lct it cid t) := r in
  Build_Reference i f m s ps e (Some newCompress) ctx eps ad li ri cc co es lct it cid t.

Definition changeContext (r : Reference) (newContext : Context) : Reference :=
  if bool_decide (newContext = getContext r) then r else
  let '(Build_Reference i f m s ps e c _ eps ad li ri cc co es lct it cid t) := r in
  Build_Reference i f m s ps e c newContext eps ad li ri cc co es lct it cid t.

Definition changeEndpoints (r : Reference) (newEndpoints : list Endpoint) : Reference :=
  if bool_decide (newEndpoints = getEndpoints r) then r else
  let '(Build_Reference i f m s ps e c ctx _ _ li ri cc co es lct it cid t) := r in
  Build_Reference i f m s ps e c ctx newEndpoints EmptyString li ri cc co es lct it cid t.

Definition changeAdapterId (r : Reference) (newAdapterId : string) : Reference :=
  if bool_decide (newAdapterId = getAdapterId r) then r else
  let '(Build_Reference i f m s ps e c ctx _ _ li ri cc co es lct it cid t) := r in
  Build_Reference i f m s ps e c ctx [] newAdapterId li ri cc co es lct it cid t.

Definition changeLocator (r : Reference) (newLocator : LocatorPrxPtr) : Reference :=
  let newLocatorInfo := Build_LocatorInfo <$> newLocator in
  if bool_decide (newLocatorInfo = getLocatorInfo r) then r else
  let '(Build_Reference i f m s ps e c ctx eps ad _ ri cc co es lct it cid t) := r in
  Build_Reference i f m s ps e c ctx eps ad newLocatorInfo ri cc co es lct it cid t.

Definition changeRouter (r : Reference) (newRouter : RouterPrxPtr) : Reference :=
  let newRouterInfo := Build_RouterInfo <$> newRouter in
  if bool_decide (newRouterInfo = getRouterInfo r) then r else
  let '(Build_Reference i f m s ps e c ctx eps ad li _ cc co es lct it cid t) := r in
  Build_Reference i f m s ps e c ctx eps ad li newRouterInfo cc co es lct it cid t.

Definition changeCacheConnection (r : Reference) (newCache : bool) : Reference :=
  if bool_decide (newCache = getCacheConnection r) then r else
  let '(Build_Reference i f m s ps e c ctx eps ad li ri _ co es lct it cid t) := r in
  Build_Reference i f m s ps e c ctx eps ad li ri newCache co es lct it cid t.

Definition changeCollocationOptimized (r : Reference) (newCollocationOptimized : bool)
  : Reference :=
  if bool_decide (newCollocationOptimized = getCollocationOptimized r) then r else
  let '(Build_Reference i f m s ps e c ctx eps ad li ri cc _ es lct it cid t) := r in
  Build_Reference i f m s ps e c ctx eps ad li ri cc newCollocationOptimized es lct it cid t.

Definition changeEndpointSelection (r : Reference) (newType : EndpointSelectionType)
  : Reference :=
  if bool_decide (newType = getEndpointSelection r) then r else
  let '(Build_Reference i f m s ps e c ctx eps ad li ri cc co _ lct it cid t) := r in
  Build_Reference i f m s ps e c ctx eps ad li ri cc co newType lct it cid t.

Definition changeLocatorCacheTimeout (r : Reference) (newTimeout : Z) : Reference :=
  if bool_decide (newTimeout = getLocatorCacheTimeout r) then r else
  let '(Build_Reference i f m s ps e c ctx eps ad li ri cc co es _ it cid t) := r in
  Build_Reference i f m s ps e c ctx eps ad li ri cc co es newTimeout it cid t.

Definition changeInvocationTimeout (r : Reference) (newTimeout : Z) : Reference :=
  if bool_decide (newTimeout = getInvocationTimeout r) then r else
  let '(Build_Reference i f m s ps e c ctx eps ad li ri cc co es lct _ cid t) := r in
  Build_Reference i f m s ps e c ctx eps ad li ri cc co es lct newTimeout cid t.

Definition changeConnectionId (r : Reference) (id : string) : Reference :=
  if bool_decide (id = getConnectionId r) then r else
  let '(Build_Reference i f m s ps e c ctx eps ad li ri cc co es lct it _ t) := r in
  Build_Reference i f m s ps e c ctx eps ad li ri cc co es lct it id t.

Definition changeTimeout (r : Reference) (newTimeout : Z) : Reference :=
  if bool_decide (Some newTimeout = getTimeout r) then r else
  let '(Build_Reference i f m s ps e c ctx eps ad li ri cc co es lct it cid _) := r in
  Build_Reference i f m s ps e c ctx eps ad li ri cc co es lct it cid (Some newTimeout).

(** ** Proxy objects and the heap *)

(** A request handler and a batch request queue are known to the proxy by
    their address only. *)
Definition RequestHandlerPtr : Type := option nat.
Definition BatchRequestQueuePtr : Type := option nat.

(** The data members of [IceProxy::Ice::Object] / [Ice::ObjectPrx].
    [_reference] is null between construction and [setup]. *)
Record Object := {
  _reference : option Reference;
  _requestHandler : RequestHandlerPtr;
  _batchRequestQueue : BatchRequestQueuePtr
}.

(** The heap of proxy objects: the object at address [a] is [h !! a]. *)
Abbreviation Heap := (list Object).

(** A proxy handle: null or the address of a proxy object. *)
Definition ObjectPrxPtr : Type := option nat.

(** [*this]; an address outside the heap is a dangling pointer. *)
Definition deref (this : nat) : Comp Heap Object :=
  fun h => match h !! this with
           | Some o => Return o h
           | None => Abort
           end.

(** [p->method(...)] *)
Definition arrow {A} (p : ObjectPrxPtr) (method : nat -> Comp Heap A) : Comp Heap A :=
  match p with
  | Some a => method a
  | None => abort
  end.

(** [*_reference] of [this] *)
Definition reference (this : nat) : Comp Heap Reference :=
  o <- deref this ;;
  match _reference o with
  | Some r => ret r
  | None => abort
  end.

(** [new IceProxy::Ice::Object] / [createProxy<ObjectPrx>()] *)
Definition new_Object : Comp Heap ObjectPrxPtr :=
  fun h => Return (Some (length h))
                  (h ++ [ {| _reference := None; _requestHandler := None;
                             _batchRequestQueue := None |} ]).

(** [__newInstance()] of the base class, the only one in the file. *)
Definition __newInstance (this : nat) : Comp Heap ObjectPrxPtr := new_Object.

Section Build.

(** Whether the file is compiled with [NDEBUG], which turns [assert] off. *)
Variable NDEBUG : bool.

Definition assert {S} (c : bool) : Comp S unit :=
  if NDEBUG then ret tt else if c then ret tt else abort.

Definition setup (this : nat) (ref : Reference) : Comp Heap unit :=
  o <- deref this ;;
  assert (negb (bool_decide (is_Some (_reference o)))) ;;;
  assert (negb (bool_decide (is_Some (_requestHandler o)))) ;;;
  h <- get_state ;;
  put_state (<[this := {| _reference := Some ref;
                          _requestHandler := _requestHandler o;
                          _batchRequestQueue := _batchRequestQueue o |}]> h).

(** ** Derivations (common to both mappings) *)

(** [CONST_POINTER_CAST_OBJECT_PRX]: a handle of [this] itself. *)
Definition CONST_POINTER_CAST_OBJECT_PRX (this : nat) : ObjectPrxPtr := Some this.

Definition ice_getIdentity (this : nat) : Comp Heap Identity :=
  r <- reference this ;; ret (getIdentity r).

Definition ice_identity (this : nat) (newIdentity : Identity) : Comp Heap ObjectPrxPtr :=
  if bool_decide (name newIdentity = EmptyString) then
    throw (Local IllegalIdentityException)
  else
    r <- reference this ;;
    if bool_decide (newIdentity = getIdentity r) then
      ret (CONST_POINTER_CAST_OBJECT_PRX this)
    else
      proxy <- new_Object ;;
      arrow proxy (fun p => setup p (changeIdentity r newIdentity)) ;;;
      ret proxy.

Definition ice_getContext (this : nat) : Comp Heap Context :=
  r <- reference this ;; ret (getContext r).

Definition ice_context (this : nat) (newContext : Context) : Comp Heap ObjectPrxPtr :=
  proxy <- __newInstance this ;;
  r <- reference this ;;
  arrow proxy (fun p => setup p (changeContext r newContext)) ;;;
  ret proxy.

Definition ice_getFacet (this : nat) : Comp Heap string :=
  r <- reference this ;; ret (getFacet r).

Definition ice_facet (this : nat) (newFacet : string) : Comp Heap ObjectPrxPtr :=
  r <- reference this ;;
  if bool_decide (newFacet = getFacet r) then
    ret (CONST_POINTER_CAST_OBJECT_PRX this)
  else
    proxy <- new_Object ;;
    arrow proxy (fun p => setup p (changeFacet r newFacet)) ;;;
    ret proxy.

Definition ice_getAdapterId (this : nat) : Comp Heap string :=
  r <- reference this ;; ret (getAdapterId r).

Definition ice_adapterId (this : nat) (newAdapterId : string) : Comp Heap ObjectPrxPtr :=
  r <- reference this ;;
  if bool_decide (newAdapterId = getAdapterId r) then
    ret (CONST_POINTER_CAST_OBJECT_PRX this)
  else
    proxy <- __newInstance this ;;
    arrow proxy (fun p => setup p (changeAdapterId r newAdapterId)) ;;;
    ret proxy.

(** The two casts between [Endpoint] and [EndpointI] keep the descriptor. *)
Definition ice_getEndpoints (this : nat) : Comp Heap (list Endpoint) :=
  r <- reference this ;;
  let endpoints := getEndpoints r in
  ret (foldl (fun retSeq p => retSeq ++ [p]) [] endpoints).

Definition ice_endpoints (this : nat) (newEndpoints : list Endpoint)
  : Comp Heap ObjectPrxPtr :=
  let endpoints := foldl (fun endpoints p => endpoints ++ [p]) [] newEndpoints in
  r <- reference this ;;
  if bool_decide (endpoints = getEndpoints r) then
    ret (CONST_POINTER_CAST_OBJECT_PRX this)
  else
    proxy <- __newInstance this ;;
    arrow proxy (fun p => setup p (changeEndpoints r endpoints)) ;;;
    ret proxy.

Definition ice_getLocatorCacheTimeout (this : nat) : Comp Heap Z :=
  r <- reference this ;; ret (getLocatorCacheTimeout r).

Definition ice_locatorCacheTimeout (this : nat) (newTimeout : Z) : Comp Heap ObjectPrxPtr :=
  if bool_decide (newTimeout < -1) then
    let s := "invalid value passed to ice_locatorCacheTimeout: " +:+ pretty newTimeout in
    throw (IllegalArgumentException s)
  else
    r <- reference this ;;
    if bool_decide (newTimeout = getLocatorCacheTimeout r) then
      ret (CONST_POINTER_CAST_OBJECT_PRX this)
    else
      proxy <- __newInstance this ;;
      arrow proxy (fun p => setup p (changeLocatorCacheTimeout r newTimeout)) ;;;
      ret proxy.

Definition ice_isConnectionCached (this : nat) : Comp Heap bool :=
  r <- reference this ;; ret (getCacheConnection r).

Definition ice_connectionCached (this : nat) (newCache : bool) : Comp Heap ObjectPrxPtr :=
  r <- reference this ;;
  if bool_decide (newCache = getCacheConnection r) then
    ret (CONST_POINTER_CAST_OBJECT_PRX this)
  else
    proxy <- __newInstance this ;;
    arrow proxy (fun p => setup p (changeCacheConnection r newCache)) ;;;
    ret proxy.

Definition ice_getEndpointSelection (this : nat) : Comp Heap EndpointSelectionType :=
  r <- reference this ;; ret (getEndpointSelection r).

Definition ice_endpointSelection (this : nat) (newType : EndpointSelectionType)
  : Comp Heap ObjectPrxPtr :=
  r <- reference this ;;
  if bool_decide (newType = getEndpointSelection r) then
    ret (CONST_POINTER_CAST_OBJECT_PRX this)
  else
    proxy <- __newInstance this ;;
    arrow proxy (fun p => setup p (changeEndpointSelection r newType)) ;;;
    ret proxy.

Definition ice_isSecure (this : nat) : Comp Heap bool :=
  r <- reference this ;; ret (getSecure r).

Definition ice_secure (this : nat) (b : bool) : Comp Heap ObjectPrxPtr :=
  r <- reference this ;;
  if bool_decide (b = getSecure r) then
    ret (CONST_POINTER_CAST_OBJECT_PRX this)
  else
    proxy <- __newInstance this ;;
    arrow proxy (fun p => setup p (changeSecure r b)) ;;;
    ret proxy.

Definition ice_getEncodingVersion (this : nat) : Comp Heap EncodingVersion :=
  r <- reference this ;; ret (getEncoding r).

Definition ice_encodingVersion (this : nat) (encoding : EncodingVersion)
  : Comp Heap ObjectPrxPtr :=
  r <- reference this ;;
  if bool_decide (encoding = getEncoding r) then
    ret (CONST_POINTER_CAST_OBJECT_PRX this)
  else
    proxy <- __newInstance this ;;
    arrow proxy (fun p => setup p (changeEncoding r encoding)) ;;;
    ret proxy.

Definition ice_isPreferSecure (this : nat) : Comp Heap bool :=
  r <- reference this ;; ret (getPreferSecure r).

Definition ice_preferSecure (this : nat) (b : bool) : Comp Heap ObjectPrxPtr :=
  r <- reference this ;;
  if bool_decide (b = getPreferSecure r) then
    ret (CONST_POINTER_CAST_OBJECT_PRX this)
  else
    proxy <- __newInstance this ;;
    arrow proxy (fun p => setup p (changePreferSecure r b)) ;;;
    ret proxy.

Definition ice_getRouter (this : nat) : Comp Heap RouterPrxPtr :=
  r <- reference this ;;
  let ri := getRouterInfo r in
  ret (match ri with Some i => Some (getRouter i) | None => None end).

Definition ice_router (this : nat) (router : RouterPrxPtr) : Comp Heap ObjectPrxPtr :=
  r <- reference this ;;
  let ref := changeRouter r router in
  if bool_decide (ref = r) then
    ret (CONST_POINTER_CAST_OBJECT_PRX this)
  else
    proxy <- __newInstance this ;;
    arrow proxy (fun p => setup p ref) ;;;
    ret proxy.

Definition ice_getLocator (this : nat) : Comp Heap LocatorPrxPtr :=
  r <- reference this ;;
  let ri := getLocatorInfo r in
  ret (match ri with Some i => Some (getLocator i) | None => None end).

Definition ice_locator (this : nat) (locator : LocatorPrxPtr) : Comp Heap ObjectPrxPtr :=
  r <- reference this ;;
  let ref := changeLocator r locator in
  if bool_decide (ref = r) then
    ret (CONST_POINTER_CAST_OBJECT_PRX this)
  else
    proxy <- __newInstance this ;;
    arrow proxy (fun p => setup p ref) ;;;
    ret proxy.

Definition ice_isCollocationOptimized (this : nat) : Comp Heap bool :=
  r <- reference this ;; ret (getCollocationOptimized r).

Definition ice_collocationOptimized (this : nat) (b : bool) : Comp Heap ObjectPrxPtr :=
  r <- reference this ;;
  if bool_decide (b = getCollocationOptimized r) then
    ret (CONST_POINTER_CAST_OBJECT_PRX this)
  else
    proxy <- __newInstance this ;;
    arrow proxy (fun p => setup p (changeCollocationOptimized r b)) ;;;
    ret proxy.

Definition ice_getInvocationTimeout (this : nat) : Comp Heap Z :=
  r <- reference this ;; ret (getInvocationTimeout r).

Definition ice_invocationTimeout (this : nat) (newTimeout : Z) : Comp Heap ObjectPrxPtr :=
  if bool_decide (newTimeout < 1) && negb (bool_decide (newTimeout = -1))
     && negb (bool_decide (newTimeout = -2)) then
    let s := "invalid value passed to ice_invocationTimeout: " +:+ pretty newTimeout in
    throw (IllegalArgumentException s)
  else
    r <- reference this ;;
    if bool_decide (newTimeout = getInvocationTimeout r) then
      ret (CONST_POINTER_CAST_OBJECT_PRX this)
    else
      proxy <- __newInstance this ;;
      arrow proxy (fun p => setup p (changeInvocationTimeout r newTimeout)) ;;;
      ret proxy.

Definition ice_twoway (this : nat) : Comp Heap ObjectPrxPtr :=
  r <- reference this ;;
  if bool_decide (getMode r = ModeTwoway) then
    ret (CONST_POINTER_CAST_OBJECT_PRX this)
  else
    proxy <- __newInstance this ;;
    arrow proxy (fun p => setup p (changeMode r ModeTwoway)) ;;;
    ret proxy.

Definition ice_isTwoway (this : nat) : Comp Heap bool :=
  r <- reference this ;; ret (bool_decide (getMode r = ModeTwoway)).

Definition ice_oneway (this : nat) : Comp Heap ObjectPrxPtr :=
  r <- reference this ;;
  if bool_decide (getMode r = ModeOneway) then
    ret (CONST_POINTER_CAST_OBJECT_PRX this)
  else
    proxy <- __newInstance this ;;
    arrow proxy (fun p => setup p (changeMode r ModeOneway)) ;;;
    ret proxy.

Definition ice_isOneway (this : nat) : Comp Heap bool :=
  r <- reference this ;; ret (bool_decide (getMode r = ModeOneway)).

Definition ice_batchOneway (this : nat) : Comp Heap ObjectPrxPtr :=
  r <- reference this ;;
  if bool_decide (getMode r = ModeBatchOneway) then
    ret (CONST_POINTER_CAST_OBJECT_PRX this)
  else
    proxy <- __newInstance this ;;
    arrow proxy (fun p => setup p (changeMode r ModeBatchOneway)) ;;;
    ret proxy.

Definition ice_isBatchOneway (this : nat) : Comp Heap bool :=
  r <- reference this ;; ret (bool_decide (getMode r = ModeBatchOneway)).

Definition ice_datagram (this : nat) : Comp Heap ObjectPrxPtr :=
  r <- reference this ;;
  if bool_decide (getMode r = ModeDatagram) then
    ret (CONST_POINTER_CAST_OBJECT_PRX this)
  else
    proxy <- __newInstance this ;;
    arrow proxy (fun p => setup p (changeMode r ModeDatagram)) ;;;
    ret proxy.

Definition ice_isDatagram (this : nat) : Comp Heap bool :=
  r <- reference this ;; ret (bool_decide (getMode r = ModeDatagram)).

Definition ice_batchDatagram (this : nat) : Comp Heap ObjectPrxPtr :=
  r <- reference this ;;
  if bool_decide (getMode r = ModeBatchDatagram) then
    ret (CONST_POINTER_CAST_OBJECT_PRX this)
  else
    proxy <- __newInstance this ;;
    arrow proxy (fun p => setup p (changeMode r ModeBatchDatagram)) ;;;
    ret proxy.

Definition ice_isBatchDatagram (this : nat) : Comp Heap bool :=
  r <- reference this ;; ret (bool_decide (getMode r = ModeBatchDatagram)).

Definition ice_compress (this : nat) (b : bool) : Comp Heap ObjectPrxPtr :=
  r <- reference this ;;
  let ref := changeCompress r b in
  if bool_decide (ref = r) then
    ret (CONST_POINTER_CAST_OBJECT_PRX this)
  else
    proxy <- __newInstance this ;;
    arrow proxy (fun p => setup p ref) ;;;
    ret proxy.

Definition ice_timeout (this : nat) (t : Z) : Comp Heap ObjectPrxPtr :=
  if bool_decide (t < 1) && negb (bool_decide (t = -1)) then
    let s := "invalid value passed to ice_timeout: " +:+ pretty t in
    throw (IllegalArgumentException s)
  else
    r <- reference this ;;
    let ref := changeTimeout r t in
    if bool_decide (ref = r) then
      ret (CONST_POINTER_CAST_OBJECT_PRX this)
    else
      proxy <- __newInstance this ;;
      arrow proxy (fun p => setup p ref) ;;;
      ret proxy.

Definition ice_connectionId (this : nat) (id : string) : Comp Heap ObjectPrxPtr :=
  r <- reference this ;;
  let ref := changeConnectionId r id in
  if bool_decide (ref = r) then
    ret (CONST_POINTER_CAST_OBJECT_PRX this)
  else
    proxy <- __newInstance this ;;
    arrow proxy (fun p => setup p ref) ;;;
    ret proxy.

Definition ice_getConnectionId (this : nat) : Comp Heap string :=
  r <- reference this ;; ret (getConnectionId r).

End Build.

(** ** The request-handler slot *)

(** Modelled from the spec: [RequestHandler::update(previous, new)] of the
    handler at address [self], whose class is not part of the file.  The
    cached handler is replaced only if it is still the same [previous]
    instance; otherwise it stays. *)
Definition RequestHandler_update (self : nat) (previousHandler newHandler : RequestHandlerPtr)
  : RequestHandlerPtr :=
  if bool_decide (previousHandler = Some self) then newHandler else Some self.

(** [_requestHandler = handler] on [this] *)
Definition store_requestHandler (this : nat) (handler : RequestHandlerPtr) : Comp Heap unit :=
  o <- deref this ;;
  h <- get_state ;;
  put_state (<[this := {| _reference := _reference o;
                          _requestHandler := handler;
                          _batchRequestQueue := _batchRequestQueue o |}]> h).

(** The mutex is held for the whole of the guarded block; the model is
    sequential, so the block is one step. *)
Definition __setRequestHandler (this : nat) (handler : RequestHandlerPtr)
  : Comp Heap RequestHandlerPtr :=
  r <- reference this ;;
  if getCacheConnection r then
    o <- deref this ;;
    (if negb (bool_decide (is_Some (_requestHandler o))) then
       store_requestHandler this handler
     else ret tt) ;;;
    o' <- deref this ;;
    ret (_requestHandler o')
  else
    ret handler.

Definition __updateRequestHandler (this : nat) (previous handler : RequestHandlerPtr)
  : Comp Heap unit :=
  r <- reference this ;;
  if getCacheConnection r && bool_decide (is_Some previous) then
    o <- deref this ;;
    match _requestHandler o with
    | Some cur =>
        if negb (bool_decide (Some cur = handler)) then
          store_requestHandler this (RequestHandler_update cur previous handler)
        else ret tt
    | None => ret tt
    end
  else
    ret tt.

(** ** Retry classification *)

(** Run a computation on one component of a pair of states. *)
Definition on_fst {S T A} (m : Comp S A) : Comp (S * T) A :=
  fun st => match m st.1 with
            | Return a s => Return a (s, st.2)
            | Raise e s => Raise e (s, st.2)
            | Abort => Abort
            end.
Definition on_snd {S T A} (m : Comp T A) : Comp (S * T) A :=
  fun st => match m st.2 with
            | Return a t => Return a (st.1, t)
            | Raise e t => Raise e (st.1, t)
            | Abort => Abort
            end.

(** [*p] for a pointer obtained from a [dynamic_cast] *)
Definition deref_cast {S A} (p : option A) : Comp S A :=
  match p with
  | Some a => ret a
  | None => abort
  end.

Section Retry.

(** [_reference->getInstance()->proxyFactory()->checkRetryAfterException(ex, ref, cnt)]
    of the runtime, which is not part of the file: a computation over the
    retry counter [cnt] that returns the delay or throws. *)
Variable checkRetryAfterException : LocalException -> Reference -> Comp Z Z.

(** The state is the heap and the caller's [int& cnt]. *)
Definition __handleException (this : nat) (ex : Exception) (handler : RequestHandlerPtr)
    (mode : OperationMode) (sent : bool) : Comp (Heap * Z) Z :=
  on_fst (__updateRequestHandler this handler None) ;;;
  let localEx := cast_LocalException ex in
  if bool_decide (is_Some localEx)
     && (negb sent
         || bool_decide (mode = Nonmutating) || bool_decide (mode = Idempotent)
         || is_CloseConnectionException ex
         || is_ObjectNotExistException ex) then
    try_catch
      (le <- deref_cast localEx ;;
       r <- on_fst (reference this) ;;
       on_snd (checkRetryAfterException le r))
      (fun e => match e with
                | Local CommunicatorDestroyedException => Some (throw ex)
                | _ => None
                end)
  else
    throw ex.

End Retry.

(** ** Identity comparators *)

Section Comparators.

(** [operator<] of the [Identity] struct, which is declared outside the
    file. *)
Variable Identity_lt : Identity -> Identity -> bool.

Definition proxyIdentityLess (lhs rhs : ObjectPrxPtr) : Comp Heap bool :=
  match lhs, rhs with
  | None, None => ret false
  | None, Some _ => ret true
  | Some _, None => ret false
  | Some l, Some r =>
      li <- ice_getIdentity l ;;
      ri <- ice_getIdentity r ;;
      ret (Identity_lt li ri)
  end.

Definition proxyIdentityEqual (lhs rhs : ObjectPrxPtr) : Comp Heap bool :=
  match lhs, rhs with
  | None, None => ret true
  | None, Some _ => ret false
  | Some _, None => ret false
  | Some l, Some r =>
      li <- ice_getIdentity l ;;
      ri <- ice_getIdentity r ;;
      ret (bool_decide (li = ri))
  end.

Definition proxyIdentityAndFacetLess (lhs rhs : ObjectPrxPtr) : Comp Heap bool :=
  match lhs, rhs with
  | None, None => ret false
  | None, Some _ => ret true
  | Some _, None => ret false
  | Some l, Some r =>
      lhsIdentity <- ice_getIdentity l ;;
      rhsIdentity <- ice_getIdentity r ;;
      if Identity_lt lhsIdentity rhsIdentity then ret true
      else if Identity_lt rhsIdentity lhsIdentity then ret false
      else
        lhsFacet <- ice_getFacet l ;;
        rhsFacet <- ice_getFacet r ;;
        if String.ltb lhsFacet rhsFacet then ret true
        else if String.ltb rhsFacet lhsFacet then ret false
        else ret false
  end.

Definition proxyIdentityAndFacetEqual (lhs rhs : ObjectPrxPtr) : Comp Heap bool :=
  match lhs, rhs with
  | None, None => ret true
  | None, Some _ => ret false
  | Some _, None => ret false
  | Some l, Some r =>
      lhsIdentity <- ice_getIdentity l ;;
      rhsIdentity <- ice_getIdentity r ;;
      if bool_decide (lhsIdentity = rhsIdentity) then
        lhsFacet <- ice_getFacet l ;;
        rhsFacet <- ice_getFacet r ;;
        if bool_decide (lhsFacet = rhsFacet) then ret true
        else ret false
      else ret false
  end.

End Comparators.

(** ** Built-in operations *)

Definition ice_ping_name : string := "ice_ping".
Definition ice_ids_name : string := "ice_ids".
Definition ice_id_name : string := "ice_id".
Definition ice_isA_name : string := "ice_isA".
Definition ice_invoke_name : string := "ice_invoke".
Definition ice_getConnection_name : string := "ice_getConnection".
Definition ice_flushBatchRequests_name : string := "ice_flushBatchRequests".

(** What a built-in operation hands to the outgoing object: the operation
    name, its mode, the context and the parameters it writes. *)
Inductive Params :=
  | EmptyParams
  | StringParam (s : string)
  | ParamEncaps (inEncaps : list byte).

Record OutgoingRequest := {
  req_operation : string;
  req_mode : OperationMode;
  req_context : Context;
  req_params : Params
}.

(** The stream the results are read from. *)
Definition InputStream : Type := list byte.

(** An [AsyncResult] is an object of a class outside the file; it is
    described by what each method that [Proxy.cpp] calls on it does.
    [getProxy] and [getOperation] are the proxy and the operation name it
    was made for; [__wait] throws the exception the invocation failed with
    or returns [__ok]; [__throwUserException] throws the exception it reads
    from the reply; [__readParamEncaps] gives the address and the bytes of
    the reply's encapsulation. *)
Record AsyncResult := {
  getProxy : option nat;
  getOperation : string;
  __wait : Exception + bool;
  __throwUserException : Exception;
  __readParamEncaps : Exception + (Z * list byte);
  __readEmptyParams : Exception + unit;
  __startReadParams : Exception + InputStream;
  __endReadParams : Exception + unit
}.

Definition AsyncResultPtr : Type := option AsyncResult.
Definition CallbackBasePtr : Type := option nat.
Definition LocalObjectPtr : Type := option nat.

(** A call whose outcome is a thrown exception or a value. *)
Definition call {S A} (r : Exception + A) : Comp S A :=
  match r with
  | inl e => throw e
  | inr a => ret a
  end.

(** [__result->method()] *)
Definition arrow_result {S A} (p : AsyncResultPtr) (method : AsyncResult -> Comp S A)
  : Comp S A :=
  match p with
  | Some r => method r
  | None => abort
  end.

(** *** The C++98 mapping *)

Module Cpp98.
Section Cpp98.

Variable NDEBUG : bool.

(** The synchronous [ice_isA] is declared in [Proxy.h], outside the file. *)
Variable ice_isA : nat -> string -> Context -> Comp Heap bool.

(** [new CallbackOutgoing(this, name, del, cookie, sync)] followed by the
    [try] block that prepares, writes and invokes the request and aborts
    the result with the exception it catches.  The class is outside the
    file. *)
Variable CallbackOutgoing :
  nat -> string -> CallbackBasePtr -> LocalObjectPtr -> bool -> OutgoingRequest ->
  Comp Heap AsyncResultPtr.

(** [AsyncResult::__check(result, this, operation)], outside the file:
    the exception it throws, if any. *)
Variable AsyncResult__check : AsyncResultPtr -> nat -> string -> option Exception.

(** [InputStream::read] for the three result types. *)
Variable read_bool : InputStream -> Exception + bool.
Variable read_string : InputStream -> Exception + string.
Variable read_stringSeq : InputStream -> Exception + list string.

Definition check (__result : AsyncResultPtr) (this : nat) (operation : string)
  : Comp Heap unit :=
  match AsyncResult__check __result this operation with
  | Some e => throw e
  | None => ret tt
  end.

Definition checkedCastImpl (b : ObjectPrxPtr) (f : string) (typeId : string)
    (context : Context) : Comp Heap ObjectPrxPtr :=
  match b with
  | Some b' =>
      bb <- ice_facet NDEBUG b' f ;;
      try_catch
        (isA <- arrow bb (fun p => ice_isA p typeId context) ;;
         if isA then ret bb
         else
           assert NDEBUG (negb (bool_decide (typeId = "::Ice::Object"))) ;;;
           ret None)
        (fun e => match e with
                  | Local FacetNotExistException => Some (ret None)
                  | _ => None
                  end)
  | None => ret None
  end.

Definition __checkTwowayOnly (this : nat) (name : string) (sync : bool) : Comp Heap unit :=
  twoway <- ice_isTwoway this ;;
  if negb twoway then
    if sync then throw (Local (TwowayOnlyException name))
    else throw (IllegalArgumentException
                  ("`" +:+ name +:+ "' can only be called with a twoway proxy"))
  else ret tt.

Definition __begin_ice_isA (this : nat) (typeId : string) (ctx : Context)
    (del : CallbackBasePtr) (cookie : LocalObjectPtr) (sync : bool)
  : Comp Heap AsyncResultPtr :=
  __checkTwowayOnly this ice_isA_name sync ;;;
  CallbackOutgoing this ice_isA_name del cookie sync
    {| req_operation := ice_isA_name; req_mode := Nonmutating;
       req_context := ctx; req_params := StringParam typeId |}.

(** The [catch] clause that wraps a user exception. *)
Definition wrap_UserException {S A} (e : Exception) : option (Comp S A) :=
  match e with
  | UserException id => Some (throw (Local (UnknownUserException id)))
  | _ => None
  end.

Definition end_ice_isA (this : nat) (__result : AsyncResultPtr) : Comp Heap bool :=
  check __result this ice_isA_name ;;;
  __ok <- arrow_result __result (fun r => call (__wait r)) ;;
  (if negb __ok then
     try_catch (arrow_result __result (fun r => throw (__throwUserException r)))
               wrap_UserException
   else ret tt) ;;;
  __is <- arrow_result __result (fun r => call (__startReadParams r)) ;;
  __ret <- call (read_bool __is) ;;
  arrow_result __result (fun r => call (__endReadParams r)) ;;;
  ret __ret.

Definition __begin_ice_ping (this : nat) (ctx : Context)
    (del : CallbackBasePtr) (cookie : LocalObjectPtr) (sync : bool)
  : Comp Heap AsyncResultPtr :=
  CallbackOutgoing this ice_ping_name del cookie sync
    {| req_operation := ice_ping_name; req_mode := Nonmutating;
       req_context := ctx; req_params := EmptyParams |}.

Definition __end (this : nat) (__result : AsyncResultPtr) (operation : string)
  : Comp Heap unit :=
  check __result this operation ;;;
  __ok <- arrow_result __result (fun r => call (__wait r)) ;;
  ref <- reference this ;;
  if bool_decide (getMode ref = ModeTwoway) then
    (if negb __ok then
       try_catch (arrow_result __result (fun r => throw (__throwUserException r)))
                 wrap_UserException
     else ret tt) ;;;
    arrow_result __result (fun r => call (__readEmptyParams r))
  else ret tt.

Definition end_ice_ping (this : nat) (__result : AsyncResultPtr) : Comp Heap unit :=
  __end this __result ice_ping_name.

Definition __begin_ice_ids (this : nat) (ctx : Context)
    (del : CallbackBasePtr) (cookie : LocalObjectPtr) (sync : bool)
  : Comp Heap AsyncResultPtr :=
  __checkTwowayOnly this ice_ids_name sync ;;;
  CallbackOutgoing this ice_ids_name del cookie sync
    {| req_operation := ice_ids_name; req_mode := Nonmutating;
       req_context := ctx; req_params := EmptyParams |}.

Definition end_ice_ids (this : nat) (__result : AsyncResultPtr) : Comp Heap (list string) :=
  check __result this ice_ids_name ;;;
  __ok <- arrow_result __result (fun r => call (__wait r)) ;;
  (if negb __ok then
     try_catch (arrow_result __result (fun r => throw (__throwUserException r)))
               wrap_UserException
   else ret tt) ;;;
  __is <- arrow_result __result (fun r => call (__startReadParams r)) ;;
  __ret <- call (read_stringSeq __is) ;;
  arrow_result __result (fun r => call (__endReadParams r)) ;;;
  ret __ret.

Definition __begin_ice_id (this : nat) (ctx : Context)
    (del : CallbackBasePtr) (cookie : LocalObjectPtr) (sync : bool)
  : Comp Heap AsyncResultPtr :=
  __checkTwowayOnly this ice_id_name sync ;;;
  CallbackOutgoing this ice_id_name del cookie sync
    {| req_operation := ice_id_name; req_mode := Nonmutating;
       req_context := ctx; req_params := EmptyParams |}.

Definition end_ice_id (this : nat) (__result : AsyncResultPtr) : Comp Heap string :=
  check __result this ice_id_name ;;;
  __ok <- arrow_result __result (fun r => call (__wait r)) ;;
  (if negb __ok then
     try_catch (arrow_result __result (fun r => throw (__throwUserException r)))
               wrap_UserException
   else ret tt) ;;;
  __is <- arrow_result __result (fun r => call (__startReadParams r)) ;;
  __ret <- call (read_string __is) ;;
  arrow_result __result (fun r => call (__endReadParams r)) ;;;
  ret __ret.

(** [outEncaps] is passed by reference: the value it holds on return is
    part of the result. *)
Definition end_ice_invoke (this : nat) (outEncaps : list byte) (__result : AsyncResultPtr)
  : Comp Heap (bool * list byte) :=
  check __result this ice_invoke_name ;;;
  ok <- arrow_result __result (fun r => call (__wait r)) ;;
  ref <- reference this ;;
  if bool_decide (getMode ref = ModeTwoway) then
    encaps <- arrow_result __result (fun r => call (__readParamEncaps r)) ;;
    let '(v, bytes) := encaps in
    ret (ok, bytes)
  else ret (ok, outEncaps).

(** The pair of pointers [outEncaps] is passed by reference as well; [sz]
    is the number of bytes at [v]. *)
Definition ___end_ice_invoke (this : nat) (outEncaps : Z * Z) (__result : AsyncResultPtr)
  : Comp Heap (bool * (Z * Z)) :=
  check __result this ice_invoke_name ;;;
  ok <- arrow_result __result (fun r => call (__wait r)) ;;
  ref <- reference this ;;
  if bool_decide (getMode ref = ModeTwoway) then
    encaps <- arrow_result __result (fun r => call (__readParamEncaps r)) ;;
    let '(v, bytes) := encaps in
    let sz := Z.of_nat (length bytes) in
    ret (ok, (v, v + sz))
  else ret (ok, outEncaps).

End Cpp98.
End Cpp98.

(** *** The C++11 mapping *)

Module Cpp11.
Section Cpp11.

(** The outgoing object a call site makes, synchronous or not, and its
    [invoke]; the class is outside the file. *)
Variable OutgoingAsync : Type.
Variable OutgoingAsync_invoke : OutgoingAsync -> OutgoingRequest -> Comp Heap unit.

Definition __checkTwowayOnly (this : nat) (name : string) : Comp Heap unit :=
  twoway <- ice_isTwoway this ;;
  if negb twoway then
    throw (IllegalArgumentException
             ("`" +:+ name +:+ "' can only be called with a twoway proxy"))
  else ret tt.

Definition __ice_isA (this : nat) (outAsync : OutgoingAsync) (typeId : string)
    (ctx : Context) : Comp Heap unit :=
  __checkTwowayOnly this ice_isA_name ;;;
  OutgoingAsync_invoke outAsync
    {| req_operation := ice_isA_name; req_mode := Nonmutating;
       req_context := ctx; req_params := StringParam typeId |}.

Definition __ice_ping (this : nat) (outAsync : OutgoingAsync) (ctx : Context)
  : Comp Heap unit :=
  OutgoingAsync_invoke outAsync
    {| req_operation := ice_ping_name; req_mode := Nonmutating;
       req_context := ctx; req_params := EmptyParams |}.

Definition __ice_ids (this : nat) (outAsync : OutgoingAsync) (ctx : Context)
  : Comp Heap unit :=
  __checkTwowayOnly this ice_ids_name ;;;
  OutgoingAsync_invoke outAsync
    {| req_operation := ice_ids_name; req_mode := Nonmutating;
       req_context := ctx; req_params := EmptyParams |}.

Definition __ice_id (this : nat) (outAsync : OutgoingAsync) (ctx : Context)
  : Comp Heap unit :=
  __checkTwowayOnly this ice_id_name ;;;
  OutgoingAsync_invoke outAsync
    {| req_operation := ice_id_name; req_mode := Nonmutating;
       req_context := ctx; req_params := EmptyParams |}.

End Cpp11.
End Cpp11.

(** ** Vocabulary of the properties *)

(** The proxy at address [this] of heap [h] has been set up with
    reference [r]. *)
Definition proxy_at (h : Heap) (this : nat) (o : Object) (r : Reference) : Prop :=
  h !! this = Some o /\ _reference o = Some r.

(** The proxy object a derivation allocates for reference [ref]. *)
Definition fresh_proxy (ref : Reference) : Object :=
  {| _reference := Some ref; _requestHandler := None; _batchRequestQueue := None |}.

(** Object [o] with its handler slot set to [handler]. *)
Definition with_requestHandler (o : Object) (handler : RequestHandlerPtr) : Object :=
  {| _reference := _reference o; _requestHandler := handler;
     _batchRequestQueue := _batchRequestQueue o |}.

Definition raises_IllegalArgument {S A} (o : Outcome S A) : Prop :=
  exists reason s, o = Raise (IllegalArgumentException reason) s.

Definition returns {S A} (o : Outcome S A) : Prop :=
  exists a s, o = Return a s.

(** The invariants of a constructed Reference, as the spec's data model
    lists them: a non-empty identity name and timeouts within range. *)
Definition Reference_wf (r : Reference) : Prop :=
  name (getIdentity r) <> EmptyString
  /\ -1 <= getLocatorCacheTimeout r
  /\ (1 <= getInvocationTimeout r \/ getInvocationTimeout r = -1
      \/ getInvocationTimeout r = -2)
  /\ (forall t, getTimeout r = Some t -> 1 <= t \/ t = -1).

(** A call of one of the derivations of the proxy. *)
Inductive Derivation :=
  | With_identity (newIdentity : Identity)
  | With_context (newContext : Context)
  | With_facet (newFacet : string)
  | With_adapterId (newAdapterId : string)
  | With_endpoints (newEndpoints : list Endpoint)
  | With_locatorCacheTimeout (newTimeout : Z)
  | With_connectionCached (newCache : bool)
  | With_endpointSelection (newType : EndpointSelectionType)
  | With_secure (b : bool)
  | With_encodingVersion (encoding : EncodingVersion)
  | With_preferSecure (b : bool)
  | With_router (router : RouterPrxPtr)
  | With_locator (locator : LocatorPrxPtr)
  | With_collocationOptimized (b : bool)
  | With_invocationTimeout (newTimeout : Z)
  | With_twoway
  | With_oneway
  | With_batchOneway
  | With_datagram
  | With_batchDatagram
  | With_compress (b : bool)
  | With_timeout (t : Z)
  | With_connectionId (id : string).

Definition derive (NDEBUG : bool) (this : nat) (d : Derivation) : Comp Heap ObjectPrxPtr :=
  match d with
  | With_identity newIdentity => ice_identity NDEBUG this newIdentity
  | With_context newContext => ice_context NDEBUG this newContext
  | With_facet newFacet => ice_facet NDEBUG this newFacet
  | With_adapterId newAdapterId => ice_adapterId NDEBUG this newAdapterId
  | With_endpoints newEndpoints => ice_endpoints NDEBUG this newEndpoints
  | With_locatorCacheTimeout newTimeout => ice_locatorCacheTimeout NDEBUG this newTimeout
  | With_connectionCached newCache => ice_connectionCached NDEBUG this newCache
  | With_endpointSelection newType => ice_endpointSelection NDEBUG this newType
  | With_secure b => ice_secure NDEBUG this b
  | With_encodingVersion encoding => ice_encodingVersion NDEBUG this encoding
  | With_preferSecure b => ice_preferSecure NDEBUG this b
  | With_router router => ice_router NDEBUG this router
  | With_locator locator => ice_locator NDEBUG this locator
  | With_collocationOptimized b => ice_collocationOptimized NDEBUG this b
  | With_invocationTimeout newTimeout => ice_invocationTimeout NDEBUG this newTimeout
  | With_twoway => ice_twoway NDEBUG this
  | With_oneway => ice_oneway NDEBUG this
  | With_batchOneway => ice_batchOneway NDEBUG this
  | With_datagram => ice_datagram NDEBUG this
  | With_batchDatagram => ice_batchDatagram NDEBUG this
  | With_compress b => ice_compress NDEBUG this b
  | With_timeout t => ice_timeout NDEBUG this t
  | With_connectionId id => ice_connectionId NDEBUG this id
  end.

(** The value a derivation is called with is the attribute's current value
    in [r]: what the getter of the proxy returns, or, for an attribute
    without getter, the value the Reference holds. *)
Definition current (r : Reference) (d : Derivation) : Prop :=
  match d with
  | With_identity newIdentity => newIdentity = getIdentity r
  | With_context newContext => newContext = getContext r
  | With_facet newFacet => newFacet = getFacet r
  | With_adapterId newAdapterId => newAdapterId = getAdapterId r
  | With_endpoints newEndpoints => newEndpoints = getEndpoints r
  | With_locatorCacheTimeout newTimeout => newTimeout = getLocatorCacheTimeout r
  | With_connectionCached newCache => newCache = getCacheConnection r
  | With_endpointSelection newType => newType = getEndpointSelection r
  | With_secure b => b = getSecure r
  | With_encodingVersion encoding => encoding = getEncoding r
  | With_preferSecure b => b = getPreferSecure r
  | With_router router => router = getRouter <$> getRouterInfo r
  | With_locator locator => locator = getLocator <$> getLocatorInfo r
  | With_collocationOptimized b => b = getCollocationOptimized r
  | With_invocationTimeout newTimeout => newTimeout = getInvocationTimeout r
  | With_twoway => getMode r = ModeTwoway
  | With_oneway => getMode r = ModeOneway
  | With_batchOneway => getMode r = ModeBatchOneway
  | With_datagram => getMode r = ModeDatagram
  | With_batchDatagram => getMode r = ModeBatchDatagram
  | With_compress b => getCompress r = Some b
  | With_timeout t => getTimeout r = Some t
  | With_connectionId id => id = getConnectionId r
  end.

Definition is_With_context (d : Derivation) : bool :=
  match d with With_context _ => true | _ => false end.

(** The retry predicate in the spec's words: the exception is a local
    exception and the request was not sent, or the mode is Nonmutating or
    Idempotent, or the exception is a graceful close or an
    object-not-exist. *)
Definition retry_permitted (ex : Exception) (mode : OperationMode) (sent : bool) : Prop :=
  (exists le, ex = Local le)
  /\ (sent = false \/ mode = Nonmutating \/ mode = Idempotent
      \/ ex = Local CloseConnectionException
      \/ ex = Local ObjectNotExistException).

#[global] Instance retry_permitted_dec ex mode sent :
  Decision (retry_permitted ex mode sent).
Proof.
  unfold retry_permitted.
  assert (Decision (exists le, ex = Local le)).
  { destruct ex; try (right; intros [? ?]; discriminate). left. by eexists. }
  apply _.
Defined.

(** What [__handleException] makes of the outcome of the retry policy: the
    delay it returns, the exception it throws, or the original exception
    when the communicator is destroyed. *)
Definition delegated (ex : Exception) (h : Heap) (policy : Outcome Z Z)
  : Outcome (Heap * Z) Z :=
  match policy with
  | Return delay cnt' => Return delay (h, cnt')
  | Raise (Local CommunicatorDestroyedException) cnt' => Raise ex (h, cnt')
  | Raise e cnt' => Raise e (h, cnt')
  | Abort => Abort
  end.

(** The reason the illegal-argument error carries. *)
Definition twoway_only_reason (name : string) : string :=
  "`" +:+ name +:+ "' can only be called with a twoway proxy".

Definition ping_request (ctx : Context) : OutgoingRequest :=
  {| req_operation := ice_ping_name; req_mode := Nonmutating;
     req_context := ctx; req_params := EmptyParams |}.

(** The error of the C++98 check at a call site. *)
Definition twoway_only_error (name : string) (sync : bool) : Exception :=
  if sync then Local (TwowayOnlyException name)
  else IllegalArgumentException (twoway_only_reason name).

(** *** A sample heap *)

Definition sample_reference : Reference := {|
  getIdentity := {| name := "acc"; category := "" |};
  getFacet := "";
  getMode := ModeTwoway;
  getSecure := false;
  getPreferSecure := false;
  getEncoding := {| major := 1; minor := 1 |};
  getCompress := None;
  getContext := {[ "tenant" := "blue" ]};
  getEndpoints := ["tcp -h server -p 10000"];
  getAdapterId := "";
  getLocatorInfo := None;
  getRouterInfo := None;
  getCacheConnection := true;
  getCollocationOptimized := true;
  getEndpointSelection := Random;
  getLocatorCacheTimeout := -1;
  getInvocationTimeout := -1;
  getConnectionId := "";
  getTimeout := None
|}.

Definition sample_oneway : Reference := changeMode sample_reference ModeOneway.
Definition sample_uncached : Reference := changeCacheConnection sample_reference false.

(** Address 0: a two-way proxy; 1: its one-way derivation; 2: a two-way
    proxy bound to handler 7; 3: a proxy that does not cache connections. *)
Definition sample_heap : Heap :=
  [ fresh_proxy sample_reference;
    fresh_proxy sample_oneway;
    with_requestHandler (fresh_proxy sample_reference) (Some 7%nat);
    fresh_proxy sample_uncached ].

(** *** Sample collaborators and replies *)

(** A policy that always retries at once, and counts. *)
Definition sample_policy : LocalException -> Reference -> Comp Z Z :=
  fun _ _ cnt => Return 0 (cnt + 1).

(** A result that completed with a successful, empty reply. *)
Definition sample_result (proxy : nat) (operation : string) : AsyncResult := {|
  getProxy := Some proxy;
  getOperation := operation;
  __wait := inr true;
  __throwUserException := Local (OtherLocalException "::Ice::MarshalException");
  __readParamEncaps := inr (4096, []);
  __readEmptyParams := inr tt;
  __startReadParams := inr [];
  __endReadParams := inr tt
|}.

(** An outgoing object that completes at once. *)
Definition sample_CallbackOutgoing :
  nat -> string -> CallbackBasePtr -> LocalObjectPtr -> bool -> OutgoingRequest ->
  Comp Heap AsyncResultPtr :=
  fun this operation _ _ _ _ => ret (Some (sample_result this operation)).

(** A reply that carries a user exception and three bytes. *)
Definition sample_user_reply (proxy : nat) (operation : string) : AsyncResult := {|
  getProxy := Some proxy;
  getOperation := operation;
  __wait := inr false;
  __throwUserException := UserException "::Bank::InsufficientFunds";
  __readParamEncaps := inr (4096, [x01; x02; x03]);
  __readEmptyParams := inr tt;
  __startReadParams := inr [x01; x02; x03];
  __endReadParams := inr tt
|}.

(** A check that accepts the results made for this proxy and operation. *)
Definition sample_check : AsyncResultPtr -> nat -> string -> option Exception :=
  fun result this operation =>
    match result with
    | None => Some (IllegalArgumentException "AsyncResult == null")
    | Some r =>
        if negb (bool_decide (getOperation r = operation)) then
          Some (IllegalArgumentException
                  ("Incorrect operation for end_" +:+ operation +:+ " method: "
                   +:+ getOperation r))
        else if negb (bool_decide (getProxy r = Some this)) then
          Some (IllegalArgumentException
                  ("Proxy for call to end_" +:+ operation
                   +:+ " does not match proxy that was used to call corresponding begin_"
                   +:+ operation +:+ " method"))
        else None
    end.

Definition sample_read_bool : InputStream -> Exception + bool :=
  fun s => match s with
           | [] => inl (Local (OtherLocalException "::Ice::UnmarshalOutOfBoundsException"))
           | b :: _ => inr (negb (Byte.eqb b x00))
           end.
Definition sample_read_string : InputStream -> Exception + string :=
  fun _ => inr "::Ice::Object".
Definition sample_read_stringSeq : InputStream -> Exception + list string :=
  fun _ => inr ["::Ice::Object"].

(** The sample proxy and its derivation for facet "admin". *)
Definition facet_heap : Heap :=
  [ fresh_proxy sample_reference;
    fresh_proxy (changeFacet sample_reference "admin") ].

(** A server whose object supports no type at all. *)
Definition isA_false : nat -> string -> Context -> Comp Heap bool :=
  fun _ _ _ => ret false.

(** ** Further operations of the proxy *)

(** A connection is known to the proxy by its address only. *)
Definition ConnectionPtr : Type := option nat.

(** [IceProxy::Ice::Object::operator==] and [Ice::operator==] on two
    proxy objects: the comparison of their Reference handles, two null
    handles being equal. *)
Definition operator_eq (lhs rhs : nat) : Comp Heap bool :=
  l <- deref lhs ;;
  r <- deref rhs ;;
  ret (bool_decide (_reference l = _reference r)).

(** [_batchRequestQueue = queue] on [this] *)
Definition store_batchRequestQueue (this : nat) (queue : BatchRequestQueuePtr)
  : Comp Heap unit :=
  o <- deref this ;;
  h <- get_state ;;
  put_state (<[this := {| _reference := _reference o;
                          _requestHandler := _requestHandler o;
                          _batchRequestQueue := queue |}]> h).

Section Binding.

(** [Reference::getRequestHandler(proxy)] and
    [Reference::getBatchRequestQueue()], which are not part of the file:
    computations that may touch the heap and may throw. *)
Variable Reference_getRequestHandler : Reference -> nat -> Comp Heap RequestHandlerPtr.
Variable Reference_getBatchRequestQueue : Reference -> Comp Heap BatchRequestQueuePtr.

(** [RequestHandler::getConnection()] of the handler at an address: the
    connection, or the exception it throws. *)
Variable RequestHandler_getConnection : nat -> Exception + ConnectionPtr.

Definition ice_getCachedConnection (this : nat) : Comp Heap ConnectionPtr :=
  o <- deref this ;;
  let __handler := _requestHandler o in
  match __handler with
  | Some handler =>
      try_catch (call (RequestHandler_getConnection handler))
                (fun e => match e with
                          | Local _ => Some (ret None)
                          | _ => None
                          end)
  | None => ret None
  end.

Definition __getRequestHandler (this : nat) : Comp Heap RequestHandlerPtr :=
  r <- reference this ;;
  if getCacheConnection r then
    o <- deref this ;;
    if bool_decide (is_Some (_requestHandler o)) then ret (_requestHandler o)
    else Reference_getRequestHandler r this
  else Reference_getRequestHandler r this.

Definition __getBatchRequestQueue (this : nat) : Comp Heap BatchRequestQueuePtr :=
  o <- deref this ;;
  (if negb (bool_decide (is_Some (_batchRequestQueue o))) then
     r <- reference this ;;
     queue <- Reference_getBatchRequestQueue r ;;
     store_batchRequestQueue this queue
   else ret tt) ;;;
  o' <- deref this ;;
  ret (_batchRequestQueue o').

End Binding.

Definition __copyFrom (this : nat) (from : ObjectPrxPtr) : Comp Heap unit :=
  arrow from (fun f =>
    fo <- deref f ;;
    o <- deref this ;;
    h <- get_state ;;
    put_state (<[this := {| _reference := _reference fo;
                            _requestHandler := _requestHandler fo;
                            _batchRequestQueue := _batchRequestQueue o |}]> h)).

(** *** Vocabulary of the further properties *)

(** A handle is null or the address of a proxy that has been set up. *)
Definition handle_ok (h : Heap) (p : ObjectPrxPtr) : Prop :=
  match p with
  | None => True
  | Some a => exists o r, proxy_at h a o r
  end.

(** Object [o] with its batch queue slot set to [queue]. *)
Definition with_batchRequestQueue (o : Object) (queue : BatchRequestQueuePtr) : Object :=
  {| _reference := _reference o; _requestHandler := _requestHandler o;
     _batchRequestQueue := queue |}.

(** The exceptions a derivation raises for a bad argument. *)
Definition usage_error (e : Exception) : Prop :=
  e = Local IllegalIdentityException \/ exists reason, e = IllegalArgumentException reason.

(** What a derivation called on the proxy at [this] of heap [h] may end
    in: a usage error and the heap as it was, the handle of the proxy
    itself and the heap as it was, or the handle of a proxy appended to the
    heap whose handler and batch queue slots are empty. *)
Definition derivation_outcome (h : Heap) (this : nat) (out : Outcome Heap ObjectPrxPtr)
  : Prop :=
  (exists e, usage_error e /\ out = Raise e h)
  \/ out = Return (Some this) h
  \/ (exists ref, out = Return (Some (length h)) (h ++ [fresh_proxy ref])).

(** How many of the given answers are true. *)
Definition count_true (l : list bool) : nat := length (filter (fun b => b = true) l).

(** A comparator run on heap [h] answers [b] and leaves the heap as it
    is. *)
Definition answers (m : Comp Heap bool) (h : Heap) (b : bool) : Prop :=
  m h = Return b h.

(** What [std::map] needs of [operator<] on identities: a strict total
    order. *)
Definition strict_total_order (lt : Identity -> Identity -> bool) : Prop :=
  (forall i, lt i i = false)
  /\ (forall i j k, lt i j = true -> lt j k = true -> lt i k = true)
  /\ (forall i j, lt i j = false -> lt j i = false -> i = j).

(** A result whose invocation failed with a connect timeout, and a reply
    to a ping that carries a user exception and whose parameters cannot be
    read. *)
Definition sample_failed_result (proxy : nat) (operation : string) : AsyncResult := {|
  getProxy := Some proxy;
  getOperation := operation;
  __wait := inl (Local ConnectTimeoutException);
  __throwUserException := Local (OtherLocalException "::Ice::MarshalException");
  __readParamEncaps := inl (Local (OtherLocalException "::Ice::MarshalException"));
  __readEmptyParams := inl (Local (OtherLocalException "::Ice::MarshalException"));
  __startReadParams := inl (Local (OtherLocalException "::Ice::MarshalException"));
  __endReadParams := inr tt
|}.

Definition sample_unread_reply (proxy : nat) (operation : string) : AsyncResult := {|
  getProxy := Some proxy;
  getOperation := operation;
  __wait := inr false;
  __throwUserException := UserException "::Bank::InsufficientFunds";
  __readParamEncaps := inl (Local (OtherLocalException "::Ice::MarshalException"));
  __readEmptyParams := inl (Local (OtherLocalException "::Ice::MarshalException"));
  __startReadParams := inl (Local (OtherLocalException "::Ice::MarshalException"));
  __endReadParams := inr tt
|}.

(** A sample order on identities: by name, then by category. *)
Definition sample_Identity_lt (i j : Identity) : bool :=
  String.ltb (name i) (name j)
  || (bool_decide (name i = name j) && String.ltb (category i) (category j)).

(** Sample collaborators of the binding operations. *)
Definition sample_getRequestHandler : Reference -> nat -> Comp Heap RequestHandlerPtr :=
  fun _ _ => ret (Some 11%nat).
Definition sample_getBatchRequestQueue : Reference -> Comp Heap BatchRequestQueuePtr :=
  fun _ => ret (Some 21%nat).
Definition sample_getConnection : nat -> Exception + ConnectionPtr :=
  fun handler => if bool_decide (handler = 7%nat) then inl (Local ConnectTimeoutException)
                 else inr (Some 31%nat).

(** ** Running computations *)

Lemma bind_Return {S A B} (m : Comp S A) (k : A -> Comp S B) s a s' :
  m s = Return a s' -> bind m k s = k a s'.
Proof. unfold bind. by intros ->. Qed.

Lemma bind_Raise {S A B} (m : Comp S A) (k : A -> Comp S B) s e s' :
  m s = Raise e s' -> bind m k s = Raise e s'.
Proof. unfold bind. by intros ->. Qed.

Lemma bind_Abort {S A B} (m : Comp S A) (k : A -> Comp S B) s :
  m s = Abort -> bind m k s = Abort.
Proof. unfold bind. by intros ->. Qed.

Lemma deref_at h this o : h !! this = Some o -> deref this h = Return o h.
Proof. unfold deref. by intros ->. Qed.

Lemma reference_at h this o r : proxy_at h this o r -> reference this h = Return r h.
Proof.
  intros [Ho Hr]. unfold reference.
  rewrite (bind_Return _ _ _ _ _ (deref_at _ _ _ Ho)). by rewrite Hr.
Qed.

Lemma assert_true NDEBUG {S} (s : S) : assert NDEBUG true s = Return tt s.
Proof. unfold assert. by destruct NDEBUG. Qed.

(** Allocation followed by [setup] yields a new proxy at the end of the
    heap, whatever the build. *)
Lemma allocate_setup NDEBUG ref (h : Heap) :
  (proxy <- new_Object ;; arrow proxy (fun p => setup NDEBUG p ref) ;;; ret proxy) h
  = Return (Some (length h)) (h ++ [fresh_proxy ref]).
Proof.
  unfold bind at 1. unfold new_Object. cbn [arrow].
  set (o := {| _reference := None; _requestHandler := None; _batchRequestQueue := None |}).
  assert (Hlook : (h ++ [o]) !! length h = Some o) by by apply list_lookup_middle.
  erewrite bind_Return; [reflexivity|].
  unfold setup.
  rewrite (bind_Return _ _ _ _ _ (deref_at _ _ _ Hlook)).
  cbn [_reference _requestHandler _batchRequestQueue o].
  rewrite !bool_decide_eq_false_2 by (intros [? ?]; discriminate).
  cbn [negb].
  rewrite (bind_Return _ _ _ _ _ (assert_true _ _)).
  rewrite (bind_Return _ _ _ _ _ (assert_true _ _)).
  unfold bind, get_state, put_state. f_equal.
  replace (length h) with (length h + 0)%nat by lia.
  by rewrite insert_app_r.
Qed.

Lemma fresh_address (h : Heap) this o :
  h !! this = Some o -> Some (length h) <> Some this.
Proof. intros Ho%lookup_lt_Some [=]. lia. Qed.

Ltac run_reference Hp :=
  rewrite (bind_Return _ _ _ _ _ (reference_at _ _ _ _ Hp)).

(** The copy loop over an endpoint sequence rebuilds the sequence. *)
Lemma foldl_push_back {A} (l acc : list A) :
  foldl (fun retSeq p => retSeq ++ [p]) acc l = acc ++ l.
Proof.
  revert acc. induction l as [|x l IH]; intros acc; cbn.
  - by rewrite app_nil_r.
  - rewrite IH. by rewrite <- app_assoc.
Qed.

Lemma changeRouter_current r :
  changeRouter r (getRouter <$> getRouterInfo r) = r.
Proof.
  unfold changeRouter. rewrite bool_decide_eq_true_2; [done|].
  by destruct (getRouterInfo r) as [[?]|].
Qed.

Lemma changeLocator_current r :
  changeLocator r (getLocator <$> getLocatorInfo r) = r.
Proof.
  unfold changeLocator. rewrite bool_decide_eq_true_2; [done|].
  by destruct (getLocatorInfo r) as [[?]|].
Qed.

(** [ice_context] never compares: it allocates for every context. *)
Lemma ice_context_allocates NDEBUG (h : Heap) this o r newContext :
  proxy_at h this o r ->
  ice_context NDEBUG this newContext h
  = Return (Some (length h)) (h ++ [fresh_proxy (changeContext r newContext)]).
Proof.
  intros Hp. unfold ice_context, __newInstance.
  unfold bind at 1. unfold new_Object.
  set (o0 := {| _reference := None; _requestHandler := None;
                _batchRequestQueue := None |}).
  assert (Hp' : proxy_at (h ++ [o0]) this o r).
  { destruct Hp as [Ho Hr]. split; [|done]. by apply lookup_app_l_Some. }
  run_reference Hp'. cbn [arrow].
  pose proof (allocate_setup NDEBUG (changeContext r newContext) h) as Halloc.
  unfold bind at 1 in Halloc. unfold new_Object in Halloc. cbn [arrow] in Halloc.
  exact Halloc.
Qed.

Lemma sample_proxy_0 :
  proxy_at sample_heap 0 (fresh_proxy sample_reference) sample_reference.
Proof. split; reflexivity. Defined.

Lemma sample_proxy_1 :
  proxy_at sample_heap 1 (fresh_proxy sample_oneway) sample_oneway.
Proof. split; reflexivity. Defined.

Lemma sample_proxy_2 :
  proxy_at sample_heap 2 (with_requestHandler (fresh_proxy sample_reference) (Some 7%nat))
           sample_reference.
Proof. split; reflexivity. Defined.

Lemma sample_proxy_3 :
  proxy_at sample_heap 3 (fresh_proxy sample_uncached) sample_uncached.
Proof. split; reflexivity. Defined.

Lemma sample_reference_wf : Reference_wf sample_reference.
Proof.
  unfold Reference_wf. cbn. split; [discriminate|].
  split; [discriminate|]. split; [by right; left|]. intros t H. discriminate H.
Defined.

(** ** Derivation sharing *)

(** C2, as amended: for a proxy set up with a well-formed Reference, every
    derivation other than [ice_context], called with the current value of
    its attribute, returns the handle of the proxy itself and leaves the
    heap as it is (nothing is allocated); [ice_context] returns the handle
    of a newly allocated proxy whatever the context, the current one
    included. *)
Theorem derivation_sharing NDEBUG (h : Heap) this o r :
  proxy_at h this o r ->
  Reference_wf r ->
  (forall d, is_With_context d = false -> current r d ->
             derive NDEBUG this d h = Return (Some this) h)
  /\ (forall newContext,
        derive NDEBUG this (With_context newContext) h
        = Return (Some (length h)) (h ++ [fresh_proxy (changeContext r newContext)])
        /\ Some (length h) <> Some this).
Proof.
  intros Hp (Hname & Hlct & Hit & Hto). split.
  - intros d Hd Hcur.
    destruct d; cbn [is_With_context] in Hd; try discriminate;
      cbn [derive current] in *.
    + unfold ice_identity. subst newIdentity.
      rewrite bool_decide_eq_false_2 by done.
      run_reference Hp. by rewrite bool_decide_eq_true_2.
    + unfold ice_facet. run_reference Hp. by rewrite bool_decide_eq_true_2.
    + unfold ice_adapterId. run_reference Hp. by rewrite bool_decide_eq_true_2.
    + unfold ice_endpoints. rewrite foldl_push_back. cbn [app].
      run_reference Hp. by rewrite bool_decide_eq_true_2.
    + unfold ice_locatorCacheTimeout. subst newTimeout.
      rewrite bool_decide_eq_false_2 by lia.
      run_reference Hp. by rewrite bool_decide_eq_true_2.
    + unfold ice_connectionCached. run_reference Hp. by rewrite bool_decide_eq_true_2.
    + unfold ice_endpointSelection. run_reference Hp. by rewrite bool_decide_eq_true_2.
    + unfold ice_secure. run_reference Hp. by rewrite bool_decide_eq_true_2.
    + unfold ice_encodingVersion. run_reference Hp. by rewrite bool_decide_eq_true_2.
    + unfold ice_preferSecure. run_reference Hp. by rewrite bool_decide_eq_true_2.
    + unfold ice_router. run_reference Hp. subst router.
      rewrite changeRouter_current. by rewrite bool_decide_eq_true_2.
    + unfold ice_locator. run_reference Hp. subst locator.
      rewrite changeLocator_current. by rewrite bool_decide_eq_true_2.
    + unfold ice_collocationOptimized. run_reference Hp.
      by rewrite bool_decide_eq_true_2.
    + unfold ice_invocationTimeout. subst newTimeout.
      replace (_ && _ && _) with false; cycle 1.
      { symmetry. destruct Hit as [?|[->| ->]]; [|done..].
        by rewrite bool_decide_eq_false_2 by lia. }
      run_reference Hp. by rewrite bool_decide_eq_true_2.
    + unfold ice_twoway. run_reference Hp. by rewrite bool_decide_eq_true_2.
    + unfold ice_oneway. run_reference Hp. by rewrite bool_decide_eq_true_2.
    + unfold ice_batchOneway. run_reference Hp. by rewrite bool_decide_eq_true_2.
    + unfold ice_datagram. run_reference Hp. by rewrite bool_decide_eq_true_2.
    + unfold ice_batchDatagram. run_reference Hp. by rewrite bool_decide_eq_true_2.
    + unfold ice_compress. run_reference Hp. unfold changeCompress.
      rewrite (bool_decide_eq_true_2 (Some b = _)) by done.
      by rewrite bool_decide_eq_true_2.
    + unfold ice_timeout.
      replace (_ && _) with false; cycle 1.
      { symmetry. destruct (Hto _ Hcur) as [?| ->]; [|done].
        by rewrite bool_decide_eq_false_2 by lia. }
      run_reference Hp. unfold changeTimeout.
      rewrite (bool_decide_eq_true_2 (Some t = _)) by done.
      by rewrite bool_decide_eq_true_2.
    + unfold ice_connectionId. run_reference Hp. unfold changeConnectionId.
      rewrite (bool_decide_eq_true_2 (id = _)) by done.
      by rewrite bool_decide_eq_true_2.
  - intros newContext. split; [|destruct Hp as [Ho _]; by eapply fresh_address].
    cbn [derive]. by eapply ice_context_allocates.
Qed.

Lemma derivation_sharing_witness :
  derive true 0 (With_secure false) sample_heap = Return (Some 0%nat) sample_heap
  /\ derive false 0 (With_invocationTimeout (-1)) sample_heap
     = Return (Some 0%nat) sample_heap.
Proof.
  split.
  - exact (proj1 (derivation_sharing true sample_heap 0 _ _
                    sample_proxy_0 sample_reference_wf)
                 (With_secure false) eq_refl eq_refl).
  - exact (proj1 (derivation_sharing false sample_heap 0 _ _
                    sample_proxy_0 sample_reference_wf)
                 (With_invocationTimeout (-1)) eq_refl eq_refl).
Defined.

(** C2 as stated fails for [ice_context]: called on the sample proxy with
    the very context the proxy has, it returns a new handle and the heap
    has grown by one proxy. *)
Lemma ice_context_not_shared :
  current sample_reference (With_context (getContext sample_reference))
  /\ ice_context true 0 (getContext sample_reference) sample_heap
     = Return (Some 4%nat) (sample_heap ++ [fresh_proxy sample_reference])
  /\ ice_context true 0 (getContext sample_reference) sample_heap
     <> Return (Some 0%nat) sample_heap.
Proof.
  assert (H : ice_context true 0 (getContext sample_reference) sample_heap
              = Return (Some 4%nat) (sample_heap ++ [fresh_proxy sample_reference])).
  { rewrite (ice_context_allocates _ _ _ _ _ _ sample_proxy_0).
    unfold changeContext. by rewrite bool_decide_eq_true_2. }
  split; [reflexivity|]. split; [exact H|]. rewrite H. discriminate.
Qed.

(** ** [ice_identity] *)

(** C5: [ice_identity] raises IllegalIdentityException when the name of
    the identity is empty; for a non-empty name it returns the handle of
    the proxy itself when the identity is the current one, and otherwise
    the handle of a newly allocated proxy, distinct from the proxy, that
    wraps the Reference derived by [changeIdentity], whose identity is the
    new one. *)
Theorem ice_identity_cases NDEBUG (h : Heap) this newIdentity :
  (name newIdentity = EmptyString ->
   ice_identity NDEBUG this newIdentity h = Raise (Local IllegalIdentityException) h)
  /\ (forall o r, proxy_at h this o r -> name newIdentity <> EmptyString ->
        (newIdentity = getIdentity r ->
         ice_identity NDEBUG this newIdentity h = Return (Some this) h)
        /\ (newIdentity <> getIdentity r ->
            ice_identity NDEBUG this newIdentity h
            = Return (Some (length h))
                     (h ++ [fresh_proxy (changeIdentity r newIdentity)])
            /\ Some (length h) <> Some this
            /\ getIdentity (changeIdentity r newIdentity) = newIdentity)).
Proof.
  split.
  - intros Hempty. unfold ice_identity. by rewrite bool_decide_eq_true_2.
  - intros o r Hp Hname. unfold ice_identity.
    rewrite bool_decide_eq_false_2 by done. run_reference Hp. split.
    + intros Heq. by rewrite bool_decide_eq_true_2.
    + intros Hne. rewrite bool_decide_eq_false_2 by done.
      split; [apply allocate_setup|]. split.
      * destruct Hp as [Ho _]. by eapply fresh_address.
      * unfold changeIdentity. rewrite bool_decide_eq_false_2 by done.
        by destruct r.
Qed.

Lemma ice_identity_cases_witness :
  ice_identity true 0 {| name := ""; category := "c" |} sample_heap
  = Raise (Local IllegalIdentityException) sample_heap
  /\ ice_identity true 0 {| name := "acc"; category := "" |} sample_heap
     = Return (Some 0%nat) sample_heap
  /\ ice_identity true 0 {| name := "other"; category := "" |} sample_heap
     = Return (Some 4%nat)
         (sample_heap
          ++ [fresh_proxy (changeIdentity sample_reference
                             {| name := "other"; category := "" |})]).
Proof.
  split; [|split].
  - exact (proj1 (ice_identity_cases true sample_heap 0
                    {| name := ""; category := "c" |}) eq_refl).
  - refine (proj1 (proj2 (ice_identity_cases true sample_heap 0
                            {| name := "acc"; category := "" |})
                     _ _ sample_proxy_0 _) eq_refl).
    discriminate.
  - refine (proj1 (proj2 (proj2 (ice_identity_cases true sample_heap 0
                                   {| name := "other"; category := "" |})
                            _ _ sample_proxy_0 _) _)).
    + discriminate.
    + discriminate.
Defined.

(** ** Timeout validation *)

(** C6: on a proxy that has been set up, [ice_locatorCacheTimeout] raises
    IllegalArgumentException exactly when its argument is below -1,
    [ice_invocationTimeout] exactly when its argument is below 1 and neither
    -1 nor -2, and [ice_timeout] exactly when its argument is below 1 and
    not -1; whenever they do not raise it they return a proxy. *)
Theorem timeout_validation NDEBUG (h : Heap) this o r (t : Z) :
  proxy_at h this o r ->
  (raises_IllegalArgument (ice_locatorCacheTimeout NDEBUG this t h) <-> t < -1)
  /\ (~ t < -1 -> returns (ice_locatorCacheTimeout NDEBUG this t h))
  /\ (raises_IllegalArgument (ice_invocationTimeout NDEBUG this t h)
      <-> t < 1 /\ t <> -1 /\ t <> -2)
  /\ (~ (t < 1 /\ t <> -1 /\ t <> -2) ->
      returns (ice_invocationTimeout NDEBUG this t h))
  /\ (raises_IllegalArgument (ice_timeout NDEBUG this t h) <-> t < 1 /\ t <> -1)
  /\ (~ (t < 1 /\ t <> -1) -> returns (ice_timeout NDEBUG this t h)).
Proof.
  intros Hp.
  assert (Hlct : ~ t < -1 -> returns (ice_locatorCacheTimeout NDEBUG this t h)).
  { intros Hok. unfold ice_locatorCacheTimeout.
    rewrite bool_decide_eq_false_2 by done. run_reference Hp.
    case_bool_decide; [by eexists _, _|].
    unfold __newInstance. rewrite allocate_setup. by eexists _, _. }
  assert (Hit : ~ (t < 1 /\ t <> -1 /\ t <> -2) ->
                returns (ice_invocationTimeout NDEBUG this t h)).
  { intros Hok. unfold ice_invocationTimeout.
    replace (_ && _ && _) with false; cycle 1.
    { symmetry. repeat case_bool_decide; cbn; try done. exfalso. apply Hok. lia. }
    run_reference Hp. case_bool_decide; [by eexists _, _|].
    unfold __newInstance. rewrite allocate_setup. by eexists _, _. }
  assert (Hto : ~ (t < 1 /\ t <> -1) -> returns (ice_timeout NDEBUG this t h)).
  { intros Hok. unfold ice_timeout.
    replace (_ && _) with false; cycle 1.
    { symmetry. repeat case_bool_decide; cbn; try done. exfalso. apply Hok. lia. }
    run_reference Hp. case_bool_decide; [by eexists _, _|].
    unfold __newInstance. rewrite allocate_setup. by eexists _, _. }
  repeat split; try assumption.
  - intros (reason & s & Hraise). destruct (decide (t < -1)) as [|Hok]; [done|].
    destruct (Hlct Hok) as (a & s' & Hret). congruence.
  - intros Hbad. unfold ice_locatorCacheTimeout.
    rewrite bool_decide_eq_true_2 by done. by eexists _, _.
  - destruct H as (reason & s & Hraise).
    destruct (decide (t < 1 /\ t <> -1 /\ t <> -2)) as [|Hok]; [lia|].
    destruct (Hit Hok) as (a & s' & Hret). congruence.
  - destruct H as (reason & s & Hraise).
    destruct (decide (t < 1 /\ t <> -1 /\ t <> -2)) as [|Hok]; [lia|].
    destruct (Hit Hok) as (a & s' & Hret). congruence.
  - destruct H as (reason & s & Hraise).
    destruct (decide (t < 1 /\ t <> -1 /\ t <> -2)) as [|Hok]; [lia|].
    destruct (Hit Hok) as (a & s' & Hret). congruence.
  - intros (H1 & H2 & H3). unfold ice_invocationTimeout.
    rewrite (bool_decide_eq_true_2 (t < 1)) by done.
    rewrite !bool_decide_eq_false_2 by done. by eexists _, _.
  - destruct H as (reason & s & Hraise).
    destruct (decide (t < 1 /\ t <> -1)) as [|Hok]; [lia|].
    destruct (Hto Hok) as (a & s' & Hret). congruence.
  - destruct H as (reason & s & Hraise).
    destruct (decide (t < 1 /\ t <> -1)) as [|Hok]; [lia|].
    destruct (Hto Hok) as (a & s' & Hret). congruence.
  - intros (H1 & H2). unfold ice_timeout.
    rewrite (bool_decide_eq_true_2 (t < 1)) by done.
    rewrite !bool_decide_eq_false_2 by done. by eexists _, _.
Qed.

Lemma timeout_validation_witness :
  raises_IllegalArgument (ice_locatorCacheTimeout true 0 (-2) sample_heap)
  /\ raises_IllegalArgument (ice_invocationTimeout true 0 0 sample_heap)
  /\ raises_IllegalArgument (ice_timeout true 0 0 sample_heap)
  /\ returns (ice_locatorCacheTimeout true 0 (-1) sample_heap)
  /\ returns (ice_invocationTimeout true 0 (-1) sample_heap)
  /\ returns (ice_timeout true 0 (-1) sample_heap)
  /\ returns (ice_locatorCacheTimeout true 0 1 sample_heap)
  /\ returns (ice_invocationTimeout true 0 1 sample_heap)
  /\ returns (ice_timeout true 0 1 sample_heap).
Proof.
  pose proof (fun t => timeout_validation true sample_heap 0 _ _ t sample_proxy_0) as V.
  destruct (V (-2)) as (A1 & _).
  destruct (V 0) as (_ & _ & B1 & _ & B2 & _).
  destruct (V (-1)) as (_ & C1 & _ & C2 & _ & C3).
  destruct (V 1) as (_ & D1 & _ & D2 & _ & D3).
  split; [apply A1; lia|]. split; [apply B1; lia|]. split; [apply B2; lia|].
  split; [apply C1; lia|]. split; [apply C2; lia|]. split; [apply C3; lia|].
  split; [apply D1; lia|]. split; [apply D2; lia|]. apply D3; lia.
Defined.

(** ** The handler cache *)

Lemma store_requestHandler_at (h : Heap) this o handler :
  h !! this = Some o ->
  store_requestHandler this handler h
  = Return tt (<[this := with_requestHandler o handler]> h).
Proof.
  intros Ho. unfold store_requestHandler.
  by rewrite (bind_Return _ _ _ _ _ (deref_at _ _ _ Ho)).
Qed.

Lemma with_requestHandler_id o : with_requestHandler o (_requestHandler o) = o.
Proof. by destruct o. Qed.

Lemma proxy_at_store (h : Heap) this o r handler :
  proxy_at h this o r ->
  proxy_at (<[this := with_requestHandler o handler]> h) this
           (with_requestHandler o handler) r.
Proof.
  intros [Ho Hr]. split; [|done].
  apply list_lookup_insert_eq. by eapply lookup_lt_Some.
Qed.

(** [__updateRequestHandler] always returns, and the proxy keeps its
    reference. *)
Lemma updateRequestHandler_returns (h : Heap) this o r previous handler :
  proxy_at h this o r ->
  exists h' o', __updateRequestHandler this previous handler h = Return tt h'
                /\ proxy_at h' this o' r.
Proof.
  intros Hp. unfold __updateRequestHandler. run_reference Hp.
  destruct (getCacheConnection r && bool_decide (is_Some previous));
    [|by exists h, o].
  destruct Hp as [Ho Hr].
  rewrite (bind_Return _ _ _ _ _ (deref_at _ _ _ Ho)).
  destruct (_requestHandler o) as [cur|]; [|by exists h, o].
  destruct (negb (bool_decide (Some cur = handler))); [|by exists h, o].
  rewrite (store_requestHandler_at _ _ _ _ Ho).
  eexists _, _. split; [done|]. by apply proxy_at_store.
Qed.

(** C4: the install rules of the handler cache.  [__setRequestHandler]
    returns its argument and leaves the proxy alone when the Reference does
    not cache connections; when it does, it stores the argument in an empty
    slot and returns it, and returns the handler of an occupied slot
    without storing.  [__updateRequestHandler] stores
    [slot->update(previous, handler)] in the slot when the Reference caches
    connections, the slot is occupied and its handler is not [handler]
    (for a null [previous] the code does not call [update]: what [update]
    returns then is the handler of the slot, which stays); in every other
    case it leaves the heap as it is. *)
Theorem handler_install_rules (h : Heap) this o r :
  proxy_at h this o r ->
  (forall handler, getCacheConnection r = false ->
     __setRequestHandler this handler h = Return handler h)
  /\ (forall handler, getCacheConnection r = true -> _requestHandler o = None ->
        __setRequestHandler this handler h
        = Return handler (<[this := with_requestHandler o handler]> h))
  /\ (forall handler cur, getCacheConnection r = true -> _requestHandler o = Some cur ->
        __setRequestHandler this handler h = Return (Some cur) h)
  /\ (forall previous handler cur,
        getCacheConnection r = true -> _requestHandler o = Some cur ->
        Some cur <> handler ->
        __updateRequestHandler this previous handler h
        = Return tt (<[this := with_requestHandler o
                                 (RequestHandler_update cur previous handler)]> h))
  /\ (forall previous handler,
        ~ (getCacheConnection r = true /\ is_Some (_requestHandler o)
           /\ _requestHandler o <> handler) ->
        __updateRequestHandler this previous handler h = Return tt h).
Proof.
  intros Hp. pose proof Hp as [Ho Hr]. repeat split.
  - intros handler Hcache. unfold __setRequestHandler. run_reference Hp.
    by rewrite Hcache.
  - intros handler Hcache Hslot. unfold __setRequestHandler. run_reference Hp.
    rewrite Hcache. rewrite (bind_Return _ _ _ _ _ (deref_at _ _ _ Ho)).
    rewrite Hslot. rewrite bool_decide_eq_false_2 by (intros [? ?]; discriminate).
    cbn [negb]. rewrite (bind_Return _ _ _ _ _ (store_requestHandler_at _ _ _ _ Ho)).
    destruct (proxy_at_store _ _ _ _ handler Hp) as [Ho' _].
    by rewrite (bind_Return _ _ _ _ _ (deref_at _ _ _ Ho')).
  - intros handler cur Hcache Hslot. unfold __setRequestHandler. run_reference Hp.
    rewrite Hcache. rewrite (bind_Return _ _ _ _ _ (deref_at _ _ _ Ho)).
    rewrite Hslot. rewrite bool_decide_eq_true_2 by by eexists.
    cbn [negb]. unfold bind at 1. unfold ret at 1.
    rewrite (bind_Return _ _ _ _ _ (deref_at _ _ _ Ho)). by rewrite Hslot.
  - intros previous handler cur Hcache Hslot Hne.
    unfold __updateRequestHandler. run_reference Hp. rewrite Hcache.
    destruct previous as [prev|]; cbn [andb].
    + rewrite bool_decide_eq_true_2 by by eexists.
      rewrite (bind_Return _ _ _ _ _ (deref_at _ _ _ Ho)). rewrite Hslot.
      rewrite bool_decide_eq_false_2 by done. cbn [negb].
      by apply store_requestHandler_at.
    + rewrite bool_decide_eq_false_2 by (intros [? ?]; discriminate).
      unfold RequestHandler_update.
      rewrite bool_decide_eq_false_2 by discriminate.
      rewrite <- Hslot, with_requestHandler_id.
      by rewrite list_insert_id.
  - intros previous handler Hnot.
    unfold __updateRequestHandler. run_reference Hp.
    destruct (getCacheConnection r) eqn:Hcache; [|done].
    destruct (bool_decide (is_Some previous)); [|done]. cbn [andb].
    rewrite (bind_Return _ _ _ _ _ (deref_at _ _ _ Ho)).
    destruct (_requestHandler o) as [cur|] eqn:Hslot; [|done].
    case_bool_decide as Heq; [done|].
    exfalso. apply Hnot. split; [done|]. split; [by eexists|done].
Qed.

Lemma handler_install_rules_witness :
  __setRequestHandler 3 (Some 9%nat) sample_heap = Return (Some 9%nat) sample_heap
  /\ __setRequestHandler 0 (Some 9%nat) sample_heap
     = Return (Some 9%nat)
         (<[0%nat := with_requestHandler (fresh_proxy sample_reference) (Some 9%nat)]>
            sample_heap)
  /\ __setRequestHandler 2 (Some 9%nat) sample_heap = Return (Some 7%nat) sample_heap
  /\ __updateRequestHandler 2 (Some 7%nat) (Some 9%nat) sample_heap
     = Return tt
         (<[2%nat := with_requestHandler
                       (with_requestHandler (fresh_proxy sample_reference) (Some 7%nat))
                       (RequestHandler_update 7 (Some 7%nat) (Some 9%nat))]>
            sample_heap)
  /\ __updateRequestHandler 0 (Some 7%nat) (Some 9%nat) sample_heap
     = Return tt sample_heap.
Proof.
  destruct (handler_install_rules sample_heap 3 _ _ sample_proxy_3) as (A & _).
  destruct (handler_install_rules sample_heap 0 _ _ sample_proxy_0)
    as (_ & B & _ & _ & E).
  destruct (handler_install_rules sample_heap 2 _ _ sample_proxy_2)
    as (_ & _ & C & D & _).
  split; [apply A; reflexivity|].
  split; [apply B; reflexivity|].
  split; [apply C; reflexivity|].
  split; [apply D; [reflexivity|reflexivity|discriminate]|].
  apply E. intros (_ & [x Hx] & _). discriminate Hx.
Defined.

(** ** Retry classification *)

(** The test of [__handleException] is the retry predicate. *)
Lemma retry_test_spec ex mode sent :
  bool_decide (is_Some (cast_LocalException ex))
  && (negb sent
      || bool_decide (mode = Nonmutating) || bool_decide (mode = Idempotent)
      || is_CloseConnectionException ex
      || is_ObjectNotExistException ex) = true
  <-> retry_permitted ex mode sent.
Proof.
  unfold retry_permitted. rewrite andb_true_iff, !orb_true_iff, negb_true_iff.
  rewrite !bool_decide_eq_true. split.
  - intros [[le Hle] Hany]. split.
    + destruct ex; try discriminate. by eexists.
    + destruct Hany as [[[[?|?]|?]|Hc]|Hn]; auto.
      * right; right; right; left.
        destruct ex as [| | |[]]; try discriminate; done.
      * right; right; right; right.
        destruct ex as [| | |[]]; try discriminate; done.
  - intros [[le ->] Hany]. split; [by eexists|].
    destruct Hany as [?|[?|[?|[[= ->]|[= ->]]]]]; auto.
Qed.

Lemma try_catch_policy {S} (m : Comp S Z) ex s :
  try_catch m (fun e => match e with
                        | Local CommunicatorDestroyedException => Some (throw ex)
                        | _ => None
                        end) s
  = match m s with
    | Raise (Local CommunicatorDestroyedException) s' => Raise ex s'
    | o => o
    end.
Proof.
  unfold try_catch. destruct (m s) as [a s'|e s'|]; [done| |done].
  by destruct e as [| | |[]].
Qed.

(** C1: [__handleException] first clears the handler; then it delegates to
    the retry policy of the runtime exactly when the retry predicate holds,
    that is when the exception is a local exception and the request was not
    sent, or the mode is Nonmutating or Idempotent, or the exception is a
    CloseConnectionException or an ObjectNotExistException.  When the
    predicate holds the outcome is the one of the policy (with the original
    exception in place of CommunicatorDestroyedException); when it does not,
    the original exception is thrown, whatever the policy, and the retry
    counter is left alone.  In particular a local exception other than
    these two, in mode Normal with the request sent, is thrown again. *)
Theorem retry_classification (checkRetryAfterException : LocalException -> Reference -> Comp Z Z)
    (h : Heap) this o r ex handler mode sent (cnt : Z) :
  proxy_at h this o r ->
  exists h',
    __updateRequestHandler this handler None h = Return tt h'
    /\ (retry_permitted ex mode sent ->
        exists le, ex = Local le
          /\ __handleException checkRetryAfterException this ex handler mode sent (h, cnt)
             = delegated ex h' (checkRetryAfterException le r cnt))
    /\ (~ retry_permitted ex mode sent ->
        __handleException checkRetryAfterException this ex handler mode sent (h, cnt)
        = Raise ex (h', cnt))
    /\ (forall le, ex = Local le -> mode = Normal -> sent = true ->
          le <> CloseConnectionException -> le <> ObjectNotExistException ->
          __handleException checkRetryAfterException this ex handler mode sent (h, cnt)
          = Raise ex (h', cnt)).
Proof.
  intros Hp.
  destruct (updateRequestHandler_returns _ _ _ _ handler None Hp)
    as (h' & o' & Hupd & Hp').
  exists h'. split; [done|].
  assert (Hclear : forall (k : unit -> Comp (Heap * Z) Z),
             bind (on_fst (__updateRequestHandler this handler None)) k (h, cnt)
             = k tt (h', cnt)).
  { intros k. apply bind_Return. unfold on_fst. cbn [fst snd]. by rewrite Hupd. }
  assert (Hno : ~ retry_permitted ex mode sent ->
     __handleException checkRetryAfterException this ex handler mode sent (h, cnt)
     = Raise ex (h', cnt)).
  { intros Hnot. unfold __handleException. rewrite Hclear.
    cbv zeta. destruct (_ && _) eqn:Htest; [|done].
    by apply retry_test_spec in Htest. }
  split; [|split; [done|]].
  - intros Hyes. pose proof Hyes as [[le ->] _]. exists le. split; [done|].
    unfold __handleException. rewrite Hclear. cbv zeta.
    apply retry_test_spec in Hyes. rewrite Hyes.
    rewrite try_catch_policy. cbn [cast_LocalException deref_cast].
    unfold bind at 1. unfold ret at 1.
    unfold bind at 1. unfold on_fst at 1. cbn [fst snd].
    rewrite (reference_at _ _ _ _ Hp').
    unfold on_snd. cbn [fst snd].
    destruct (checkRetryAfterException le r cnt) as [d c|e c|]; cbn; try done.
    by destruct e as [| | |[]].
  - intros le -> -> -> Hc Hn. apply Hno.
    intros [_ [?|[?|[?|[[=]|[=]]]]]]; done.
Qed.

Lemma retry_classification_witness :
  exists h',
    __updateRequestHandler 2 (Some 7%nat) None sample_heap = Return tt h'
    /\ __handleException sample_policy 2 (Local CloseConnectionException) (Some 7%nat)
         Normal true (sample_heap, 0)
       = Return 0 (h', 1)
    /\ __handleException sample_policy 2 (Local ConnectTimeoutException) (Some 7%nat)
         Normal true (sample_heap, 0)
       = Raise (Local ConnectTimeoutException) (h', 0).
Proof.
  destruct (retry_classification sample_policy sample_heap 2 _ _
              (Local CloseConnectionException) (Some 7%nat) Normal true 0 sample_proxy_2)
    as (h1 & Hupd1 & Hyes & _).
  destruct (retry_classification sample_policy sample_heap 2 _ _
              (Local ConnectTimeoutException) (Some 7%nat) Normal true 0 sample_proxy_2)
    as (h2 & Hupd2 & _ & _ & Hmut).
  exists h1. split; [exact Hupd1|]. split.
  - destruct Hyes as (le & Hle & Hrun).
    + split; [by eexists|]. right; right; right; by left.
    + injection Hle as <-. exact Hrun.
  - assert (h2 = h1) as <- by congruence.
    apply (Hmut ConnectTimeoutException); done.
Defined.

(** ** Mode preconditions of the built-in operations *)

Lemma ice_isTwoway_at (h : Heap) this o r :
  proxy_at h this o r ->
  ice_isTwoway this h = Return (bool_decide (getMode r = ModeTwoway)) h.
Proof. intros Hp. unfold ice_isTwoway. by run_reference Hp. Qed.

Lemma checkTwowayOnly98_raises (h : Heap) this o r name sync :
  proxy_at h this o r -> getMode r <> ModeTwoway ->
  Cpp98.__checkTwowayOnly this name sync h = Raise (twoway_only_error name sync) h.
Proof.
  intros Hp Hmode. unfold Cpp98.__checkTwowayOnly.
  rewrite (bind_Return _ _ _ _ _ (ice_isTwoway_at _ _ _ _ Hp)).
  rewrite bool_decide_eq_false_2 by done. by destruct sync.
Qed.

Lemma checkTwowayOnly11_raises (h : Heap) this o r name :
  proxy_at h this o r -> getMode r <> ModeTwoway ->
  Cpp11.__checkTwowayOnly this name h
  = Raise (IllegalArgumentException (twoway_only_reason name)) h.
Proof.
  intros Hp Hmode. unfold Cpp11.__checkTwowayOnly.
  rewrite (bind_Return _ _ _ _ _ (ice_isTwoway_at _ _ _ _ Hp)).
  by rewrite bool_decide_eq_false_2 by done.
Qed.

(** C3, as amended: on a proxy whose mode is not Twoway, the C++98
    operations [__begin_ice_isA], [__begin_ice_id] and [__begin_ice_ids]
    raise TwowayOnlyException with the operation name when the call site is
    synchronous and IllegalArgumentException when it is asynchronous; the
    C++11 operations [__ice_isA], [__ice_id] and [__ice_ids] take no
    call-site flag and raise IllegalArgumentException for every outgoing
    object; in both mappings the ping operation makes no check and is the
    submission of the request itself. *)
Theorem twoway_only_check
    (CallbackOutgoing : nat -> string -> CallbackBasePtr -> LocalObjectPtr -> bool ->
                        OutgoingRequest -> Comp Heap AsyncResultPtr)
    (OutgoingAsync : Type)
    (OutgoingAsync_invoke : OutgoingAsync -> OutgoingRequest -> Comp Heap unit)
    (h : Heap) this o r :
  proxy_at h this o r -> getMode r <> ModeTwoway ->
  (forall typeId ctx del cookie sync,
     Cpp98.__begin_ice_isA CallbackOutgoing this typeId ctx del cookie sync h
     = Raise (twoway_only_error ice_isA_name sync) h)
  /\ (forall ctx del cookie sync,
        Cpp98.__begin_ice_id CallbackOutgoing this ctx del cookie sync h
        = Raise (twoway_only_error ice_id_name sync) h)
  /\ (forall ctx del cookie sync,
        Cpp98.__begin_ice_ids CallbackOutgoing this ctx del cookie sync h
        = Raise (twoway_only_error ice_ids_name sync) h)
  /\ (forall ctx del cookie sync,
        Cpp98.__begin_ice_ping CallbackOutgoing this ctx del cookie sync h
        = CallbackOutgoing this ice_ping_name del cookie sync (ping_request ctx) h)
  /\ (forall outAsync typeId ctx,
        Cpp11.__ice_isA OutgoingAsync OutgoingAsync_invoke this outAsync typeId ctx h
        = Raise (IllegalArgumentException (twoway_only_reason ice_isA_name)) h)
  /\ (forall outAsync ctx,
        Cpp11.__ice_id OutgoingAsync OutgoingAsync_invoke this outAsync ctx h
        = Raise (IllegalArgumentException (twoway_only_reason ice_id_name)) h)
  /\ (forall outAsync ctx,
        Cpp11.__ice_ids OutgoingAsync OutgoingAsync_invoke this outAsync ctx h
        = Raise (IllegalArgumentException (twoway_only_reason ice_ids_name)) h)
  /\ (forall outAsync ctx,
        Cpp11.__ice_ping OutgoingAsync OutgoingAsync_invoke this outAsync ctx h
        = OutgoingAsync_invoke outAsync (ping_request ctx) h).
Proof.
  intros Hp Hmode.
  pose proof (fun name sync => checkTwowayOnly98_raises h this o r name sync Hp Hmode)
    as H98.
  pose proof (fun name => checkTwowayOnly11_raises h this o r name Hp Hmode) as H11.
  repeat split; intros.
  - unfold Cpp98.__begin_ice_isA. by rewrite (bind_Raise _ _ _ _ _ (H98 _ _)).
  - unfold Cpp98.__begin_ice_id. by rewrite (bind_Raise _ _ _ _ _ (H98 _ _)).
  - unfold Cpp98.__begin_ice_ids. by rewrite (bind_Raise _ _ _ _ _ (H98 _ _)).
  - unfold Cpp11.__ice_isA. by rewrite (bind_Raise _ _ _ _ _ (H11 _)).
  - unfold Cpp11.__ice_id. by rewrite (bind_Raise _ _ _ _ _ (H11 _)).
  - unfold Cpp11.__ice_ids. by rewrite (bind_Raise _ _ _ _ _ (H11 _)).
Qed.

Lemma sample_oneway_mode : getMode sample_oneway <> ModeTwoway.
Proof. discriminate. Defined.

Lemma twoway_only_check_witness :
  Cpp98.__begin_ice_isA sample_CallbackOutgoing 1 "::X" ∅ None None true sample_heap
  = Raise (Local (TwowayOnlyException "ice_isA")) sample_heap
  /\ Cpp98.__begin_ice_isA sample_CallbackOutgoing 1 "::X" ∅ None None false sample_heap
     = Raise (IllegalArgumentException
                "`ice_isA' can only be called with a twoway proxy") sample_heap
  /\ Cpp98.__begin_ice_ping sample_CallbackOutgoing 1 ∅ None None true sample_heap
     = Return (Some (sample_result 1 "ice_ping")) sample_heap.
Proof.
  destruct (twoway_only_check sample_CallbackOutgoing bool (fun _ _ => ret tt)
              sample_heap 1 _ _ sample_proxy_1 sample_oneway_mode)
    as (A & _ & _ & B & _).
  split; [exact (A "::X" ∅ None None true)|].
  split; [exact (A "::X" ∅ None None false)|].
  exact (B ∅ None None true).
Defined.

(** C3 as stated fails in the C++11 mapping: on the one-way sample proxy,
    [__ice_isA] called for a synchronous call site (the outgoing object
    [true]) raises IllegalArgumentException, not TwowayOnlyException. *)
Lemma cpp11_sync_call_site_illegal_argument :
  getMode sample_oneway <> ModeTwoway
  /\ Cpp11.__ice_isA bool (fun _ _ => ret tt) 1 true "::X" ∅ sample_heap
     = Raise (IllegalArgumentException
                "`ice_isA' can only be called with a twoway proxy") sample_heap
  /\ Cpp11.__ice_isA bool (fun _ _ => ret tt) 1 true "::X" ∅ sample_heap
     <> Raise (Local (TwowayOnlyException "ice_isA")) sample_heap.
Proof.
  assert (H : Cpp11.__ice_isA bool (fun _ _ => ret tt) 1 true "::X" ∅ sample_heap
              = Raise (IllegalArgumentException
                         "`ice_isA' can only be called with a twoway proxy")
                      sample_heap).
  { unfold Cpp11.__ice_isA.
    by rewrite (bind_Raise _ _ _ _ _
                  (checkTwowayOnly11_raises _ _ _ _ _ sample_proxy_1 sample_oneway_mode)). }
  split; [discriminate|]. split; [exact H|]. rewrite H. discriminate.
Qed.

(** ** Completion of the built-in operations *)

Lemma check_passes (check : AsyncResultPtr -> nat -> string -> option Exception)
    (h : Heap) result this operation :
  check result this operation = None ->
  Cpp98.check check result this operation h = Return tt h.
Proof. unfold Cpp98.check. by intros ->. Qed.

(** C7: for a completed generic invoke (the result passes [__check] and
    [__wait] returns [ok]), the boolean returned by [end_ice_invoke] and by
    [___end_ice_invoke] is [ok]; when the mode of the Reference is Twoway
    the output receives the reply's encapsulation ([bytes] at address [v]),
    and for every other mode the output is left as the caller passed it. *)
Theorem end_ice_invoke_result
    (check : AsyncResultPtr -> nat -> string -> option Exception)
    (h : Heap) this o r (res : AsyncResult) (ok : bool)
    (outEncaps : list byte) (outPair : Z * Z) :
  proxy_at h this o r ->
  check (Some res) this ice_invoke_name = None ->
  __wait res = inr ok ->
  (getMode r = ModeTwoway ->
   forall v bytes, __readParamEncaps res = inr (v, bytes) ->
     Cpp98.end_ice_invoke check this outEncaps (Some res) h = Return (ok, bytes) h
     /\ Cpp98.___end_ice_invoke check this outPair (Some res) h
        = Return (ok, (v, v + Z.of_nat (length bytes))) h)
  /\ (getMode r <> ModeTwoway ->
      Cpp98.end_ice_invoke check this outEncaps (Some res) h = Return (ok, outEncaps) h
      /\ Cpp98.___end_ice_invoke check this outPair (Some res) h
         = Return (ok, outPair) h).
Proof.
  intros Hp Hcheck Hwait.
  assert (Hw : arrow_result (S := Heap) (Some res) (fun r => call (__wait r)) h
               = Return ok h).
  { cbn [arrow_result]. by rewrite Hwait. }
  split.
  - intros Hmode v bytes Hread. split.
    + unfold Cpp98.end_ice_invoke.
      rewrite (bind_Return _ _ _ _ _ (check_passes _ _ _ _ _ Hcheck)).
      rewrite (bind_Return _ _ _ _ _ Hw). run_reference Hp.
      rewrite bool_decide_eq_true_2 by done.
      cbn [arrow_result]. by rewrite Hread.
    + unfold Cpp98.___end_ice_invoke.
      rewrite (bind_Return _ _ _ _ _ (check_passes _ _ _ _ _ Hcheck)).
      rewrite (bind_Return _ _ _ _ _ Hw). run_reference Hp.
      rewrite bool_decide_eq_true_2 by done.
      cbn [arrow_result]. by rewrite Hread.
  - intros Hmode. split.
    + unfold Cpp98.end_ice_invoke.
      rewrite (bind_Return _ _ _ _ _ (check_passes _ _ _ _ _ Hcheck)).
      rewrite (bind_Return _ _ _ _ _ Hw). run_reference Hp.
      by rewrite bool_decide_eq_false_2 by done.
    + unfold Cpp98.___end_ice_invoke.
      rewrite (bind_Return _ _ _ _ _ (check_passes _ _ _ _ _ Hcheck)).
      rewrite (bind_Return _ _ _ _ _ Hw). run_reference Hp.
      by rewrite bool_decide_eq_false_2 by done.
Qed.

Lemma end_ice_invoke_result_witness :
  Cpp98.end_ice_invoke sample_check 0 [] (Some (sample_user_reply 0 "ice_invoke"))
    sample_heap
  = Return (false, [x01; x02; x03]) sample_heap
  /\ Cpp98.___end_ice_invoke sample_check 0 (0, 0)
       (Some (sample_user_reply 0 "ice_invoke")) sample_heap
     = Return (false, (4096, 4096 + 3)) sample_heap
  /\ Cpp98.end_ice_invoke sample_check 1 [xff] (Some (sample_result 1 "ice_invoke"))
       sample_heap
     = Return (true, [xff]) sample_heap.
Proof.
  destruct (end_ice_invoke_result sample_check sample_heap 0 _ _
              (sample_user_reply 0 "ice_invoke")
              false [] (0, 0) sample_proxy_0 eq_refl eq_refl) as (A & _).
  destruct (end_ice_invoke_result sample_check sample_heap 1 _ _
              (sample_result 1 "ice_invoke")
              true [xff] (0, 0) sample_proxy_1 eq_refl eq_refl) as (_ & B).
  destruct (A eq_refl 4096 [x01; x02; x03] eq_refl) as (A1 & A2).
  destruct (B sample_oneway_mode) as (B1 & _).
  split; [exact A1|]. split; [exact A2|]. exact B1.
Defined.

Lemma rethrow_wrapped {S} (res : AsyncResult) id (s : S) :
  __throwUserException res = UserException id ->
  try_catch (arrow_result (Some res) (fun r => throw (A := unit) (__throwUserException r)))
            Cpp98.wrap_UserException s
  = Raise (Local (UnknownUserException id)) s.
Proof. intros Hthrow. unfold try_catch. cbn [arrow_result]. unfold throw. by rewrite Hthrow. Qed.

(** A non-local exception is thrown again by [__handleException]. *)
Lemma handleException_not_local policy (h : Heap) this o r ex handler mode sent cnt :
  proxy_at h this o r -> cast_LocalException ex = None ->
  exists h', __updateRequestHandler this handler None h = Return tt h'
             /\ __handleException policy this ex handler mode sent (h, cnt)
                = Raise ex (h', cnt).
Proof.
  intros Hp Hcast.
  destruct (updateRequestHandler_returns _ _ _ _ handler None Hp)
    as (h' & o' & Hupd & Hp').
  exists h'. split; [done|]. unfold __handleException.
  erewrite bind_Return; cycle 1.
  { unfold on_fst. cbn [fst snd]. by rewrite Hupd. }
  cbv zeta. rewrite Hcast.
  by rewrite bool_decide_eq_false_2 by (intros [? ?]; discriminate).
Qed.

(** C9: when the reply of a built-in two-way operation carries a user
    exception ([__wait] returns false and [__throwUserException] throws a
    user exception with type id [id]), [end_ice_isA], [end_ice_id] and
    [end_ice_ids], and on a two-way proxy [__end] and so [end_ice_ping],
    each for a result that passes its [__check], raise
    UnknownUserException carrying [id]: the user exception itself is not
    what the caller receives.  A user exception handed to
    [__handleException] is thrown again without consulting the retry
    policy. *)
Theorem user_exception_wrapped
    (check : AsyncResultPtr -> nat -> string -> option Exception)
    (read_bool : InputStream -> Exception + bool)
    (read_string : InputStream -> Exception + string)
    (read_stringSeq : InputStream -> Exception + list string)
    (policy : LocalException -> Reference -> Comp Z Z)
    (h : Heap) this (res : AsyncResult) (id : string) :
  __wait res = inr false ->
  __throwUserException res = UserException id ->
  (check (Some res) this ice_isA_name = None ->
   Cpp98.end_ice_isA check read_bool this (Some res) h
   = Raise (Local (UnknownUserException id)) h)
  /\ (check (Some res) this ice_id_name = None ->
      Cpp98.end_ice_id check read_string this (Some res) h
      = Raise (Local (UnknownUserException id)) h)
  /\ (check (Some res) this ice_ids_name = None ->
      Cpp98.end_ice_ids check read_stringSeq this (Some res) h
      = Raise (Local (UnknownUserException id)) h)
  /\ (forall o r operation, proxy_at h this o r -> getMode r = ModeTwoway ->
        check (Some res) this operation = None ->
        Cpp98.__end check this (Some res) operation h
        = Raise (Local (UnknownUserException id)) h)
  /\ (forall o r, proxy_at h this o r -> getMode r = ModeTwoway ->
        check (Some res) this ice_ping_name = None ->
        Cpp98.end_ice_ping check this (Some res) h
        = Raise (Local (UnknownUserException id)) h)
  /\ (forall o r handler mode sent cnt, proxy_at h this o r ->
        exists h', __handleException policy this (UserException id) handler mode sent
                     (h, cnt)
                   = Raise (UserException id) (h', cnt)).
Proof.
  intros Hwait Hthrow.
  assert (Hw : arrow_result (S := Heap) (Some res) (fun r => call (__wait r)) h
               = Return false h).
  { cbn [arrow_result]. by rewrite Hwait. }
  assert (Hend : forall o r operation, proxy_at h this o r -> getMode r = ModeTwoway ->
            check (Some res) this operation = None ->
            Cpp98.__end check this (Some res) operation h
            = Raise (Local (UnknownUserException id)) h).
  { intros o r operation Hp Hmode Hcheck. unfold Cpp98.__end.
    rewrite (bind_Return _ _ _ _ _ (check_passes _ _ _ _ _ Hcheck)).
    rewrite (bind_Return _ _ _ _ _ Hw). run_reference Hp.
    rewrite bool_decide_eq_true_2 by done. cbn [negb].
    by rewrite (bind_Raise _ _ _ _ _ (rethrow_wrapped _ _ _ Hthrow)). }
  split; [|split; [|split; [|split; [|split]]]].
  - intros Hcheck. unfold Cpp98.end_ice_isA.
    rewrite (bind_Return _ _ _ _ _ (check_passes _ _ _ _ _ Hcheck)).
    rewrite (bind_Return _ _ _ _ _ Hw). cbn [negb].
    by rewrite (bind_Raise _ _ _ _ _ (rethrow_wrapped _ _ _ Hthrow)).
  - intros Hcheck. unfold Cpp98.end_ice_id.
    rewrite (bind_Return _ _ _ _ _ (check_passes _ _ _ _ _ Hcheck)).
    rewrite (bind_Return _ _ _ _ _ Hw). cbn [negb].
    by rewrite (bind_Raise _ _ _ _ _ (rethrow_wrapped _ _ _ Hthrow)).
  - intros Hcheck. unfold Cpp98.end_ice_ids.
    rewrite (bind_Return _ _ _ _ _ (check_passes _ _ _ _ _ Hcheck)).
    rewrite (bind_Return _ _ _ _ _ Hw). cbn [negb].
    by rewrite (bind_Raise _ _ _ _ _ (rethrow_wrapped _ _ _ Hthrow)).
  - exact Hend.
  - intros o r Hp Hmode Hcheck. unfold Cpp98.end_ice_ping. by eapply Hend.
  - intros o r handler mode sent cnt Hp.
    destruct (handleException_not_local policy h this o r (UserException id)
                handler mode sent cnt Hp eq_refl) as (h' & _ & Hrun).
    by exists h'.
Qed.

Lemma user_exception_wrapped_witness :
  Cpp98.end_ice_isA sample_check sample_read_bool 0
    (Some (sample_user_reply 0 "ice_isA")) sample_heap
  = Raise (Local (UnknownUserException "::Bank::InsufficientFunds")) sample_heap
  /\ Cpp98.end_ice_ping sample_check 0 (Some (sample_user_reply 0 "ice_ping")) sample_heap
     = Raise (Local (UnknownUserException "::Bank::InsufficientFunds")) sample_heap.
Proof.
  destruct (user_exception_wrapped sample_check sample_read_bool sample_read_string
              sample_read_stringSeq sample_policy sample_heap 0
              (sample_user_reply 0 "ice_isA")
              "::Bank::InsufficientFunds" eq_refl eq_refl)
    as (A & _).
  destruct (user_exception_wrapped sample_check sample_read_bool sample_read_string
              sample_read_stringSeq sample_policy sample_heap 0
              (sample_user_reply 0 "ice_ping")
              "::Bank::InsufficientFunds" eq_refl eq_refl)
    as (_ & _ & _ & _ & B & _).
  split; [exact (A eq_refl)|].
  exact (B _ _ sample_proxy_0 eq_refl eq_refl).
Defined.

(** ** Identity comparators *)

Lemma ice_getIdentity_at (h : Heap) this o r :
  proxy_at h this o r -> ice_getIdentity this h = Return (getIdentity r) h.
Proof. intros Hp. unfold ice_getIdentity. by run_reference Hp. Qed.

Lemma ice_getFacet_at (h : Heap) this o r :
  proxy_at h this o r -> ice_getFacet this h = Return (getFacet r) h.
Proof. intros Hp. unfold ice_getFacet. by run_reference Hp. Qed.

(** C8: [proxyIdentityEqual] is true for two null handles, false for a
    null and a non-null handle, and for two proxies true exactly when their
    identities are equal; [proxyIdentityAndFacetEqual] is the same with
    equal identities and equal facets.  In [proxyIdentityLess] and
    [proxyIdentityAndFacetLess] a null handle is less than every non-null
    handle, no non-null handle is less than null, and null is not less than
    null. *)
Theorem identity_comparators (Identity_lt : Identity -> Identity -> bool) (h : Heap) :
  (proxyIdentityEqual None None h = Return true h
   /\ proxyIdentityAndFacetEqual None None h = Return true h
   /\ proxyIdentityLess Identity_lt None None h = Return false h
   /\ proxyIdentityAndFacetLess Identity_lt None None h = Return false h)
  /\ (forall a,
        proxyIdentityEqual None (Some a) h = Return false h
        /\ proxyIdentityEqual (Some a) None h = Return false h
        /\ proxyIdentityAndFacetEqual None (Some a) h = Return false h
        /\ proxyIdentityAndFacetEqual (Some a) None h = Return false h
        /\ proxyIdentityLess Identity_lt None (Some a) h = Return true h
        /\ proxyIdentityLess Identity_lt (Some a) None h = Return false h
        /\ proxyIdentityAndFacetLess Identity_lt None (Some a) h = Return true h
        /\ proxyIdentityAndFacetLess Identity_lt (Some a) None h = Return false h)
  /\ (forall a1 o1 r1 a2 o2 r2,
        proxy_at h a1 o1 r1 -> proxy_at h a2 o2 r2 ->
        exists b1 b2,
          proxyIdentityEqual (Some a1) (Some a2) h = Return b1 h
          /\ (b1 = true <-> getIdentity r1 = getIdentity r2)
          /\ proxyIdentityAndFacetEqual (Some a1) (Some a2) h = Return b2 h
          /\ (b2 = true <-> getIdentity r1 = getIdentity r2 /\ getFacet r1 = getFacet r2)).
Proof.
  split; [done|]. split; [done|].
  intros a1 o1 r1 a2 o2 r2 Hp1 Hp2.
  exists (bool_decide (getIdentity r1 = getIdentity r2)),
         (bool_decide (getIdentity r1 = getIdentity r2)
          && bool_decide (getFacet r1 = getFacet r2)).
  split; [|split; [apply bool_decide_eq_true|split]].
  - unfold proxyIdentityEqual.
    rewrite (bind_Return _ _ _ _ _ (ice_getIdentity_at _ _ _ _ Hp1)).
    by rewrite (bind_Return _ _ _ _ _ (ice_getIdentity_at _ _ _ _ Hp2)).
  - unfold proxyIdentityAndFacetEqual.
    rewrite (bind_Return _ _ _ _ _ (ice_getIdentity_at _ _ _ _ Hp1)).
    rewrite (bind_Return _ _ _ _ _ (ice_getIdentity_at _ _ _ _ Hp2)).
    case_bool_decide; [|done].
    rewrite (bind_Return _ _ _ _ _ (ice_getFacet_at _ _ _ _ Hp1)).
    rewrite (bind_Return _ _ _ _ _ (ice_getFacet_at _ _ _ _ Hp2)).
    by case_bool_decide.
  - by rewrite andb_true_iff, !bool_decide_eq_true.
Qed.

Lemma identity_comparators_witness :
  exists b1 b2,
    proxyIdentityEqual (Some 0%nat) (Some 1%nat) facet_heap = Return b1 facet_heap
    /\ (b1 = true <-> getIdentity sample_reference
                      = getIdentity (changeFacet sample_reference "admin"))
    /\ proxyIdentityAndFacetEqual (Some 0%nat) (Some 1%nat) facet_heap
       = Return b2 facet_heap
    /\ (b2 = true <-> getIdentity sample_reference
                      = getIdentity (changeFacet sample_reference "admin")
                      /\ getFacet sample_reference
                         = getFacet (changeFacet sample_reference "admin")).
Proof.
  refine (proj2 (proj2 (identity_comparators (fun _ _ => false) facet_heap))
            0%nat _ _ 1%nat _ _ _ _).
  - split; reflexivity.
  - split; reflexivity.
Defined.

(** ** [checkedCastImpl] *)

Lemma ice_facet_derives NDEBUG (h : Heap) b o r f :
  proxy_at h b o r ->
  exists bb h1 o', ice_facet NDEBUG b f h = Return (Some bb) h1
                   /\ proxy_at h1 bb o' (changeFacet r f).
Proof.
  intros Hp. unfold ice_facet. run_reference Hp. case_bool_decide as Hf.
  - exists b, h, o. split; [done|].
    unfold changeFacet. by rewrite bool_decide_eq_true_2.
  - rewrite allocate_setup. eexists _, _, _. split; [done|].
    split; [by apply list_lookup_middle|done].
Qed.

Lemma try_catch_facet (m : Comp Heap ObjectPrxPtr) s :
  try_catch m (fun e => match e with
                        | Local FacetNotExistException => Some (ret None)
                        | _ => None
                        end) s
  = match m s with
    | Raise (Local FacetNotExistException) s' => Return None s'
    | o => o
    end.
Proof.
  unfold try_catch. destruct (m s) as [a s'|e s'|]; [done| |done].
  by destruct e as [| | |[]].
Qed.

(** C10, as amended: [checkedCastImpl] returns null for a null proxy.  For
    a proxy it derives the proxy [bb] for the facet with [ice_facet] and
    calls [ice_isA] on it: it returns [bb] when [ice_isA] returns true;
    it returns null when [ice_isA] returns false, provided the build has
    NDEBUG or the type id is not "::Ice::Object" (a build without NDEBUG
    asserts this); it returns null when [ice_isA] raises
    FacetNotExistException; every other exception of [ice_isA] is raised to
    the caller. *)
Theorem checkedCastImpl_cases NDEBUG
    (ice_isA : nat -> string -> Context -> Comp Heap bool)
    (h : Heap) f typeId context :
  Cpp98.checkedCastImpl NDEBUG ice_isA None f typeId context h = Return None h
  /\ (forall b o r, proxy_at h b o r ->
        exists bb h1 o',
          ice_facet NDEBUG b f h = Return (Some bb) h1
          /\ proxy_at h1 bb o' (changeFacet r f)
          /\ (forall h2, ice_isA bb typeId context h1 = Return true h2 ->
                Cpp98.checkedCastImpl NDEBUG ice_isA (Some b) f typeId context h
                = Return (Some bb) h2)
          /\ (forall h2, ice_isA bb typeId context h1 = Return false h2 ->
                NDEBUG = true \/ typeId <> "::Ice::Object" ->
                Cpp98.checkedCastImpl NDEBUG ice_isA (Some b) f typeId context h
                = Return None h2)
          /\ (forall h2,
                ice_isA bb typeId context h1 = Raise (Local FacetNotExistException) h2 ->
                Cpp98.checkedCastImpl NDEBUG ice_isA (Some b) f typeId context h
                = Return None h2)
          /\ (forall e h2, ice_isA bb typeId context h1 = Raise e h2 ->
                e <> Local FacetNotExistException ->
                Cpp98.checkedCastImpl NDEBUG ice_isA (Some b) f typeId context h
                = Raise e h2)).
Proof.
  split; [done|]. intros b o r Hp.
  destruct (ice_facet_derives NDEBUG h b o r f Hp) as (bb & h1 & o' & Hfacet & Hp').
  exists bb, h1, o'. split; [done|]. split; [done|].
  assert (Hrun : Cpp98.checkedCastImpl NDEBUG ice_isA (Some b) f typeId context h
                 = match (isA <- ice_isA bb typeId context ;;
                          if isA then ret (Some bb)
                          else assert NDEBUG
                                 (negb (bool_decide (typeId = "::Ice::Object"))) ;;;
                               ret None) h1 with
                   | Raise (Local FacetNotExistException) s' => Return None s'
                   | o => o
                   end).
  { unfold Cpp98.checkedCastImpl. rewrite (bind_Return _ _ _ _ _ Hfacet).
    by rewrite try_catch_facet. }
  rewrite Hrun. repeat split.
  - intros h2 HisA. by rewrite (bind_Return _ _ _ _ _ HisA).
  - intros h2 HisA Hassert. rewrite (bind_Return _ _ _ _ _ HisA).
    unfold bind, assert. destruct Hassert as [-> | Hne]; [done|].
    rewrite bool_decide_eq_false_2 by done. by destruct NDEBUG.
  - intros h2 HisA. by rewrite (bind_Raise _ _ _ _ _ HisA).
  - intros e h2 HisA Hne. rewrite (bind_Raise _ _ _ _ _ HisA).
    by destruct e as [| | |[]].
Qed.

Lemma checkedCastImpl_cases_witness :
  exists bb h1 o',
    ice_facet false 0 "admin" sample_heap = Return (Some bb) h1
    /\ proxy_at h1 bb o' (changeFacet sample_reference "admin")
    /\ Cpp98.checkedCastImpl false isA_false (Some 0%nat) "admin" "::Bank::Account" ∅
         sample_heap
       = Return None h1.
Proof.
  destruct (proj2 (checkedCastImpl_cases false isA_false sample_heap "admin"
                     "::Bank::Account" ∅) 0%nat _ _ sample_proxy_0)
    as (bb & h1 & o' & Hfacet & Hp' & _ & Hfalse & _).
  exists bb, h1, o'. split; [exact Hfacet|]. split; [exact Hp'|].
  apply Hfalse; [reflexivity|]. right. discriminate.
Defined.

(** C10 as stated fails in a build without NDEBUG: when [ice_isA] returns
    false for the type id "::Ice::Object", the assertion fails and
    [checkedCastImpl] does not return null. *)
Lemma checkedCastImpl_assertion_fails :
  isA_false 0 "::Ice::Object" ∅ sample_heap = Return false sample_heap
  /\ Cpp98.checkedCastImpl false isA_false (Some 0%nat) "" "::Ice::Object" ∅ sample_heap
     = Abort
  /\ Cpp98.checkedCastImpl false isA_false (Some 0%nat) "" "::Ice::Object" ∅ sample_heap
     <> Return None sample_heap.
Proof.
  assert (H : Cpp98.checkedCastImpl false isA_false (Some 0%nat) "" "::Ice::Object" ∅
                sample_heap = Abort).
  { unfold Cpp98.checkedCastImpl.
    assert (Hfacet : ice_facet false 0 "" sample_heap = Return (Some 0%nat) sample_heap).
    { unfold ice_facet. run_reference sample_proxy_0. done. }
    rewrite (bind_Return _ _ _ _ _ Hfacet). rewrite try_catch_facet. done. }
  split; [done|]. split; [exact H|]. rewrite H. discriminate.
Qed.

(** ** Further properties: derivations *)

Ltac derivation_cases Hp :=
  run_reference Hp;
  repeat match goal with
         | |- context [bool_decide ?P] => destruct (bool_decide P)
         end;
  first [ by (right; left)
        | right; right; unfold __newInstance; rewrite allocate_setup; by eexists ].

(** X1: a derivation never touches an existing proxy.  On a proxy that has
    been set up, each of the derivations ends in a usage error with the
    heap as it was, in the handle of the proxy itself with the heap as it
    was, or in the handle of a new proxy appended to the heap, whose
    handler slot and batch queue slot are empty. *)
Theorem derivation_frame NDEBUG (h : Heap) this o r (d : Derivation) :
  proxy_at h this o r ->
  derivation_outcome h this (derive NDEBUG this d h).
Proof.
  intros Hp. unfold derivation_outcome.
  destruct d; cbn [derive].
  - unfold ice_identity. case_bool_decide.
    + left. eexists. split; [by left|done].
    + derivation_cases Hp.
  - right; right. rewrite (ice_context_allocates _ _ _ _ _ _ Hp). by eexists.
  - unfold ice_facet. derivation_cases Hp.
  - unfold ice_adapterId. derivation_cases Hp.
  - unfold ice_endpoints. derivation_cases Hp.
  - unfold ice_locatorCacheTimeout. case_bool_decide.
    + left. eexists. split; [right; by eexists|done].
    + derivation_cases Hp.
  - unfold ice_connectionCached. derivation_cases Hp.
  - unfold ice_endpointSelection. derivation_cases Hp.
  - unfold ice_secure. derivation_cases Hp.
  - unfold ice_encodingVersion. derivation_cases Hp.
  - unfold ice_preferSecure. derivation_cases Hp.
  - unfold ice_router. derivation_cases Hp.
  - unfold ice_locator. derivation_cases Hp.
  - unfold ice_collocationOptimized. derivation_cases Hp.
  - unfold ice_invocationTimeout.
    destruct (_ && _ && _).
    + left. eexists. split; [right; by eexists|done].
    + derivation_cases Hp.
  - unfold ice_twoway. derivation_cases Hp.
  - unfold ice_oneway. derivation_cases Hp.
  - unfold ice_batchOneway. derivation_cases Hp.
  - unfold ice_datagram. derivation_cases Hp.
  - unfold ice_batchDatagram. derivation_cases Hp.
  - unfold ice_compress. derivation_cases Hp.
  - unfold ice_timeout.
    destruct (_ && _).
    + left. eexists. split; [right; by eexists|done].
    + derivation_cases Hp.
  - unfold ice_connectionId. derivation_cases Hp.
Qed.

Lemma derivation_frame_witness :
  derivation_outcome sample_heap 0 (derive true 0 (With_timeout 0) sample_heap)
  /\ derivation_outcome sample_heap 0 (derive false 0 (With_facet "admin") sample_heap).
Proof.
  split.
  - exact (derivation_frame true sample_heap 0 _ _ (With_timeout 0) sample_proxy_0).
  - exact (derivation_frame false sample_heap 0 _ _ (With_facet "admin") sample_proxy_0).
Defined.

(** X2: the five mode predicates partition the proxies: on a proxy that
    has been set up each of them returns, none changes the heap, and
    exactly one of the five answers is true. *)
Theorem mode_predicates_partition (h : Heap) this o r :
  proxy_at h this o r ->
  exists b1 b2 b3 b4 b5,
    ice_isTwoway this h = Return b1 h
    /\ ice_isOneway this h = Return b2 h
    /\ ice_isBatchOneway this h = Return b3 h
    /\ ice_isDatagram this h = Return b4 h
    /\ ice_isBatchDatagram this h = Return b5 h
    /\ count_true [b1; b2; b3; b4; b5] = 1%nat.
Proof.
  intros Hp.
  unfold ice_isTwoway, ice_isOneway, ice_isBatchOneway, ice_isDatagram,
    ice_isBatchDatagram.
  repeat run_reference Hp.
  do 5 eexists. do 5 (split; [reflexivity|]).
  by destruct (getMode r).
Qed.

Lemma mode_predicates_partition_witness :
  exists b1 b2 b3 b4 b5,
    ice_isTwoway 1 sample_heap = Return b1 sample_heap
    /\ ice_isOneway 1 sample_heap = Return b2 sample_heap
    /\ ice_isBatchOneway 1 sample_heap = Return b3 sample_heap
    /\ ice_isDatagram 1 sample_heap = Return b4 sample_heap
    /\ ice_isBatchDatagram 1 sample_heap = Return b5 sample_heap
    /\ count_true [b1; b2; b3; b4; b5] = 1%nat.
Proof. exact (mode_predicates_partition sample_heap 1 _ _ sample_proxy_1). Defined.

(** ** Further properties: [setup] *)

(** X3: [setup] is for a new proxy only.  On an object without reference
    and without handler it stores the reference in every build and touches
    nothing else; on a proxy that already has a reference a build without
    NDEBUG fails the assertion, and a build with NDEBUG replaces the
    reference and keeps the handler and the batch queue. *)
Theorem setup_once NDEBUG (h : Heap) this o ref :
  h !! this = Some o ->
  (_reference o = None -> _requestHandler o = None ->
   setup NDEBUG this ref h
   = Return tt (<[this := {| _reference := Some ref; _requestHandler := None;
                             _batchRequestQueue := _batchRequestQueue o |}]> h))
  /\ (is_Some (_reference o) ->
      setup false this ref h = Abort
      /\ setup true this ref h
         = Return tt (<[this := {| _reference := Some ref;
                                   _requestHandler := _requestHandler o;
                                   _batchRequestQueue := _batchRequestQueue o |}]> h)).
Proof.
  intros Ho. split.
  - intros Hr Hh. unfold setup.
    rewrite (bind_Return _ _ _ _ _ (deref_at _ _ _ Ho)). rewrite Hr, Hh.
    rewrite !bool_decide_eq_false_2 by (intros [? ?]; discriminate). cbn [negb].
    rewrite (bind_Return _ _ _ _ _ (assert_true _ _)).
    by rewrite (bind_Return _ _ _ _ _ (assert_true _ _)).
  - intros Hr. split.
    + unfold setup. rewrite (bind_Return _ _ _ _ _ (deref_at _ _ _ Ho)).
      by rewrite bool_decide_eq_true_2 by done.
    + unfold setup. by rewrite (bind_Return _ _ _ _ _ (deref_at _ _ _ Ho)).
Qed.

Lemma setup_once_witness :
  setup false 0 sample_oneway sample_heap = Abort
  /\ setup true 0 sample_oneway sample_heap
     = Return tt (<[0%nat := fresh_proxy sample_oneway]> sample_heap).
Proof.
  exact (proj2 (setup_once true sample_heap 0 (fresh_proxy sample_reference)
                  sample_oneway eq_refl)
               (ex_intro _ sample_reference eq_refl)).
Defined.

(** ** Further properties: mode derivations and the two-way check *)

Lemma changeMode_mode r m : getMode (changeMode r m) = m.
Proof. unfold changeMode. case_bool_decide; [done|]. by destruct r. Qed.

Ltac mode_derivation Hp :=
  run_reference Hp; case_bool_decide;
  [ by eexists _, _, _, _
  | unfold __newInstance; rewrite allocate_setup;
    eexists _, _, _, _; split; [reflexivity|];
    split; [split; [by apply list_lookup_middle|reflexivity]|apply changeMode_mode] ].

Lemma ice_twoway_at NDEBUG (h : Heap) this o r :
  proxy_at h this o r ->
  exists p h' o' r', ice_twoway NDEBUG this h = Return (Some p) h'
                     /\ proxy_at h' p o' r' /\ getMode r' = ModeTwoway.
Proof. intros Hp. unfold ice_twoway. mode_derivation Hp. Qed.

Lemma ice_oneway_at NDEBUG (h : Heap) this o r :
  proxy_at h this o r ->
  exists p h' o' r', ice_oneway NDEBUG this h = Return (Some p) h'
                     /\ proxy_at h' p o' r' /\ getMode r' = ModeOneway.
Proof. intros Hp. unfold ice_oneway. mode_derivation Hp. Qed.

Lemma ice_batchOneway_at NDEBUG (h : Heap) this o r :
  proxy_at h this o r ->
  exists p h' o' r', ice_batchOneway NDEBUG this h = Return (Some p) h'
                     /\ proxy_at h' p o' r' /\ getMode r' = ModeBatchOneway.
Proof. intros Hp. unfold ice_batchOneway. mode_derivation Hp. Qed.

Lemma ice_datagram_at NDEBUG (h : Heap) this o r :
  proxy_at h this o r ->
  exists p h' o' r', ice_datagram NDEBUG this h = Return (Some p) h'
                     /\ proxy_at h' p o' r' /\ getMode r' = ModeDatagram.
Proof. intros Hp. unfold ice_datagram. mode_derivation Hp. Qed.

Lemma ice_batchDatagram_at NDEBUG (h : Heap) this o r :
  proxy_at h this o r ->
  exists p h' o' r', ice_batchDatagram NDEBUG this h = Return (Some p) h'
                     /\ proxy_at h' p o' r' /\ getMode r' = ModeBatchDatagram.
Proof. intros Hp. unfold ice_batchDatagram. mode_derivation Hp. Qed.

Lemma checkTwowayOnly98_passes (h : Heap) this o r name sync :
  proxy_at h this o r -> getMode r = ModeTwoway ->
  Cpp98.__checkTwowayOnly this name sync h = Return tt h.
Proof.
  intros Hp Hmode. unfold Cpp98.__checkTwowayOnly.
  rewrite (bind_Return _ _ _ _ _ (ice_isTwoway_at _ _ _ _ Hp)).
  by rewrite bool_decide_eq_true_2.
Qed.

(** X4: the mode derivations compose with the two-way check.  From any
    proxy that has been set up, the proxy returned by [ice_oneway],
    [ice_batchOneway], [ice_datagram] or [ice_batchDatagram] is not
    two-way and the C++98 [__begin_ice_isA] on it raises the two-way-only
    error of the call site; the proxy returned by [ice_twoway] is two-way
    and [__begin_ice_isA] on it is the submission of the request. *)
Theorem mode_derivation_then_isA NDEBUG
    (CallbackOutgoing : nat -> string -> CallbackBasePtr -> LocalObjectPtr -> bool ->
                        OutgoingRequest -> Comp Heap AsyncResultPtr)
    (h : Heap) this o r :
  proxy_at h this o r ->
  (forall derivation,
     In derivation [ice_oneway NDEBUG; ice_batchOneway NDEBUG;
                    ice_datagram NDEBUG; ice_batchDatagram NDEBUG] ->
     exists p h',
       derivation this h = Return (Some p) h'
       /\ ice_isTwoway p h' = Return false h'
       /\ forall typeId ctx del cookie sync,
            Cpp98.__begin_ice_isA CallbackOutgoing p typeId ctx del cookie sync h'
            = Raise (twoway_only_error ice_isA_name sync) h')
  /\ (exists p h',
        ice_twoway NDEBUG this h = Return (Some p) h'
        /\ ice_isTwoway p h' = Return true h'
        /\ forall typeId ctx del cookie sync,
             Cpp98.__begin_ice_isA CallbackOutgoing p typeId ctx del cookie sync h'
             = CallbackOutgoing p ice_isA_name del cookie sync
                 {| req_operation := ice_isA_name; req_mode := Nonmutating;
                    req_context := ctx; req_params := StringParam typeId |} h').
Proof.
  intros Hp.
  assert (Hreject : forall p h' o' r' m,
            proxy_at h' p o' r' -> getMode r' = m -> m <> ModeTwoway ->
            ice_isTwoway p h' = Return false h'
            /\ forall typeId ctx del cookie sync,
                 Cpp98.__begin_ice_isA CallbackOutgoing p typeId ctx del cookie sync h'
                 = Raise (twoway_only_error ice_isA_name sync) h').
  { intros p h' o' r' m Hp' Hm Hne. subst m. split.
    - rewrite (ice_isTwoway_at _ _ _ _ Hp'). by rewrite bool_decide_eq_false_2.
    - intros. unfold Cpp98.__begin_ice_isA.
      by rewrite (bind_Raise _ _ _ _ _ (checkTwowayOnly98_raises _ _ _ _ _ _ Hp' Hne)). }
  split.
  - intros derivation Hin. cbn [In] in Hin.
    destruct Hin as [<-|[<-|[<-|[<-|[]]]]].
    + destruct (ice_oneway_at NDEBUG _ _ _ _ Hp) as (p & h' & o' & r' & Hrun & Hp' & Hm).
      exists p, h'. split; [done|]. by eapply Hreject.
    + destruct (ice_batchOneway_at NDEBUG _ _ _ _ Hp)
        as (p & h' & o' & r' & Hrun & Hp' & Hm).
      exists p, h'. split; [done|]. by eapply Hreject.
    + destruct (ice_datagram_at NDEBUG _ _ _ _ Hp) as (p & h' & o' & r' & Hrun & Hp' & Hm).
      exists p, h'. split; [done|]. by eapply Hreject.
    + destruct (ice_batchDatagram_at NDEBUG _ _ _ _ Hp)
        as (p & h' & o' & r' & Hrun & Hp' & Hm).
      exists p, h'. split; [done|]. by eapply Hreject.
  - destruct (ice_twoway_at NDEBUG _ _ _ _ Hp) as (p & h' & o' & r' & Hrun & Hp' & Hm).
    exists p, h'. split; [done|]. split.
    + rewrite (ice_isTwoway_at _ _ _ _ Hp'). by rewrite bool_decide_eq_true_2.
    + intros. unfold Cpp98.__begin_ice_isA.
      by rewrite (bind_Return _ _ _ _ _ (checkTwowayOnly98_passes _ _ _ _ _ _ Hp' Hm)).
Qed.

Lemma mode_derivation_then_isA_witness :
  exists p h',
    ice_oneway true 0 sample_heap = Return (Some p) h'
    /\ ice_isTwoway p h' = Return false h'
    /\ forall typeId ctx del cookie sync,
         Cpp98.__begin_ice_isA sample_CallbackOutgoing p typeId ctx del cookie sync h'
         = Raise (twoway_only_error ice_isA_name sync) h'.
Proof.
  refine (proj1 (mode_derivation_then_isA true sample_CallbackOutgoing sample_heap 0 _ _
                   sample_proxy_0) (ice_oneway true) _).
  left. reflexivity.
Defined.

(** ** Further properties: the binding slots *)

(** X5: the handler cache across calls.  On a proxy that caches
    connections and has an empty slot, [__setRequestHandler] with a handler
    installs it; from then on [__getRequestHandler] returns that handler
    without asking the Reference, and [__setRequestHandler] with any other
    handler returns the installed one and changes nothing.  On a proxy
    that does not cache connections [__getRequestHandler] is the request to
    the Reference, also after [__setRequestHandler]. *)
Theorem handler_cache_across_calls
    (Reference_getRequestHandler : Reference -> nat -> Comp Heap RequestHandlerPtr)
    (h : Heap) this o r (handler : nat) :
  proxy_at h this o r ->
  (getCacheConnection r = true -> _requestHandler o = None ->
   exists h',
     __setRequestHandler this (Some handler) h = Return (Some handler) h'
     /\ __getRequestHandler Reference_getRequestHandler this h'
        = Return (Some handler) h'
     /\ forall other, __setRequestHandler this other h' = Return (Some handler) h')
  /\ (getCacheConnection r = false ->
      __setRequestHandler this (Some handler) h = Return (Some handler) h
      /\ __getRequestHandler Reference_getRequestHandler this h
         = Reference_getRequestHandler r this h).
Proof.
  intros Hp. pose proof Hp as [Ho Hr]. split.
  - intros Hcache Hslot.
    exists (<[this := with_requestHandler o (Some handler)]> h).
    pose proof (proxy_at_store _ _ _ _ (Some handler) Hp) as Hp'.
    pose proof Hp' as [Ho' _].
    split; [|split].
    + unfold __setRequestHandler. run_reference Hp. rewrite Hcache.
      rewrite (bind_Return _ _ _ _ _ (deref_at _ _ _ Ho)). rewrite Hslot.
      rewrite bool_decide_eq_false_2 by (intros [? ?]; discriminate). cbn [negb].
      rewrite (bind_Return _ _ _ _ _ (store_requestHandler_at _ _ _ _ Ho)).
      by rewrite (bind_Return _ _ _ _ _ (deref_at _ _ _ Ho')).
    + unfold __getRequestHandler. run_reference Hp'. rewrite Hcache.
      rewrite (bind_Return _ _ _ _ _ (deref_at _ _ _ Ho')).
      by rewrite bool_decide_eq_true_2 by by eexists.
    + intros other. unfold __setRequestHandler. run_reference Hp'. rewrite Hcache.
      rewrite (bind_Return _ _ _ _ _ (deref_at _ _ _ Ho')).
      cbn [with_requestHandler _requestHandler].
      rewrite bool_decide_eq_true_2 by by eexists. cbn [negb].
      unfold bind at 1. unfold ret at 1.
      by rewrite (bind_Return _ _ _ _ _ (deref_at _ _ _ Ho')).
  - intros Hcache. split.
    + unfold __setRequestHandler. run_reference Hp. by rewrite Hcache.
    + unfold __getRequestHandler. run_reference Hp. by rewrite Hcache.
Qed.

Lemma handler_cache_across_calls_witness :
  exists h',
    __setRequestHandler 0 (Some 9%nat) sample_heap = Return (Some 9%nat) h'
    /\ __getRequestHandler sample_getRequestHandler 0 h' = Return (Some 9%nat) h'
    /\ forall other, __setRequestHandler 0 other h' = Return (Some 9%nat) h'.
Proof.
  exact (proj1 (handler_cache_across_calls sample_getRequestHandler sample_heap 0 _ _ 9
                  sample_proxy_0) eq_refl eq_refl).
Defined.

Lemma store_batchRequestQueue_at (h : Heap) this o queue :
  h !! this = Some o ->
  store_batchRequestQueue this queue h
  = Return tt (<[this := with_batchRequestQueue o queue]> h).
Proof.
  intros Ho. unfold store_batchRequestQueue.
  by rewrite (bind_Return _ _ _ _ _ (deref_at _ _ _ Ho)).
Qed.

(** X6: the batch request queue is obtained once.  When the slot of a
    proxy holds a queue, [__getBatchRequestQueue] returns it without asking
    the Reference and leaves the heap as it is.  When the slot is empty and
    the Reference answers with a queue (leaving the proxy as it was), that
    queue is stored and returned, and every later call returns the same
    queue whatever the Reference would answer then. *)
Theorem batch_queue_obtained_once
    (Reference_getBatchRequestQueue : Reference -> Comp Heap BatchRequestQueuePtr)
    (h : Heap) this o r :
  proxy_at h this o r ->
  (forall queue, _batchRequestQueue o = Some queue ->
     __getBatchRequestQueue Reference_getBatchRequestQueue this h
     = Return (Some queue) h)
  /\ (forall queue h1,
        _batchRequestQueue o = None ->
        Reference_getBatchRequestQueue r h = Return (Some queue) h1 ->
        h1 !! this = Some o ->
        exists h',
          __getBatchRequestQueue Reference_getBatchRequestQueue this h
          = Return (Some queue) h'
          /\ h' = <[this := with_batchRequestQueue o (Some queue)]> h1
          /\ forall other,
               __getBatchRequestQueue other this h' = Return (Some queue) h').
Proof.
  intros Hp. pose proof Hp as [Ho Hr].
  assert (Hcached : forall (g : Reference -> Comp Heap BatchRequestQueuePtr)
                      (hh : Heap) oo queue,
            hh !! this = Some oo -> _batchRequestQueue oo = Some queue ->
            __getBatchRequestQueue g this hh = Return (Some queue) hh).
  { intros g hh oo queue Hoo Hq. unfold __getBatchRequestQueue.
    rewrite (bind_Return _ _ _ _ _ (deref_at _ _ _ Hoo)). rewrite Hq.
    rewrite bool_decide_eq_true_2 by by eexists. cbn [negb].
    unfold bind at 1. unfold ret at 1.
    rewrite (bind_Return _ _ _ _ _ (deref_at _ _ _ Hoo)). by rewrite Hq. }
  split.
  - intros queue Hq. by eapply Hcached.
  - intros queue h1 Hq Hask Ho1.
    assert (Ho' : (<[this := with_batchRequestQueue o (Some queue)]> h1) !! this
                  = Some (with_batchRequestQueue o (Some queue))).
    { apply list_lookup_insert_eq. by eapply lookup_lt_Some. }
    eexists. split; [|split; [reflexivity|]].
    + unfold __getBatchRequestQueue.
      rewrite (bind_Return _ _ _ _ _ (deref_at _ _ _ Ho)). rewrite Hq.
      rewrite bool_decide_eq_false_2 by (intros [? ?]; discriminate). cbn [negb].
      erewrite bind_Return; cycle 1.
      { run_reference Hp. rewrite (bind_Return _ _ _ _ _ Hask).
        by apply store_batchRequestQueue_at. }
      by rewrite (bind_Return _ _ _ _ _ (deref_at _ _ _ Ho')).
    + intros other. by eapply Hcached.
Qed.

Lemma batch_queue_obtained_once_witness :
  exists h',
    __getBatchRequestQueue sample_getBatchRequestQueue 0 sample_heap
    = Return (Some 21%nat) h'
    /\ h' = <[0%nat := with_batchRequestQueue (fresh_proxy sample_reference)
                         (Some 21%nat)]> sample_heap
    /\ forall other, __getBatchRequestQueue other 0 h' = Return (Some 21%nat) h'.
Proof.
  exact (proj2 (batch_queue_obtained_once sample_getBatchRequestQueue sample_heap 0 _ _
                  sample_proxy_0) 21%nat sample_heap eq_refl eq_refl eq_refl).
Defined.

(** X7: [ice_getCachedConnection] never binds and swallows local
    exceptions.  It leaves the heap as it is; it returns null when no
    handler is cached and when the cached handler throws a local exception
    from [getConnection], the connection when the handler returns one, and
    raises only an exception of the handler that is not a local
    exception. *)
Theorem cached_connection_cases
    (RequestHandler_getConnection : nat -> Exception + ConnectionPtr)
    (h : Heap) this o :
  h !! this = Some o ->
  (_requestHandler o = None ->
   ice_getCachedConnection RequestHandler_getConnection this h = Return None h)
  /\ (forall handler connection,
        _requestHandler o = Some handler ->
        RequestHandler_getConnection handler = inr connection ->
        ice_getCachedConnection RequestHandler_getConnection this h = Return connection h)
  /\ (forall handler e,
        _requestHandler o = Some handler ->
        RequestHandler_getConnection handler = inl (Local e) ->
        ice_getCachedConnection RequestHandler_getConnection this h = Return None h)
  /\ (forall handler e,
        _requestHandler o = Some handler ->
        RequestHandler_getConnection handler = inl e ->
        cast_LocalException e = None ->
        ice_getCachedConnection RequestHandler_getConnection this h = Raise e h).
Proof.
  intros Ho. unfold ice_getCachedConnection.
  rewrite (bind_Return _ _ _ _ _ (deref_at _ _ _ Ho)). cbv zeta.
  split; [by intros ->|]. split; [|split].
  - intros handler connection -> Hc. unfold try_catch. by rewrite Hc.
  - intros handler e -> Hc. unfold try_catch. by rewrite Hc.
  - intros handler e -> Hc Hcast. unfold try_catch. rewrite Hc. cbn.
    by destruct e.
Qed.

Lemma cached_connection_cases_witness :
  ice_getCachedConnection sample_getConnection 0 sample_heap = Return None sample_heap
  /\ ice_getCachedConnection sample_getConnection 2 sample_heap = Return None sample_heap.
Proof.
  split.
  - exact (proj1 (cached_connection_cases sample_getConnection sample_heap 0 _ eq_refl)
                 eq_refl).
  - exact (proj1 (proj2 (proj2 (cached_connection_cases sample_getConnection sample_heap
                                  2 _ eq_refl)))
                 7%nat ConnectTimeoutException eq_refl eq_refl).
Defined.

(** X8: [__copyFrom] makes the proxy equal to its source.  After
    [__copyFrom] of a proxy [from] the proxy has the reference and the
    cached handler of [from] and keeps its own batch queue, no other proxy
    of the heap has changed, and [operator==] finds the two proxies
    equal. *)
Theorem copyFrom_equal (h : Heap) this from o fo :
  h !! this = Some o ->
  h !! from = Some fo ->
  exists h',
    __copyFrom this (Some from) h = Return tt h'
    /\ h' !! this = Some {| _reference := _reference fo;
                            _requestHandler := _requestHandler fo;
                            _batchRequestQueue := _batchRequestQueue o |}
    /\ (forall a, a <> this -> h' !! a = h !! a)
    /\ operator_eq this from h' = Return true h'.
Proof.
  intros Ho Hfo.
  set (o' := {| _reference := _reference fo; _requestHandler := _requestHandler fo;
                _batchRequestQueue := _batchRequestQueue o |}).
  exists (<[this := o']> h).
  assert (Ho' : (<[this := o']> h) !! this = Some o').
  { apply list_lookup_insert_eq. by eapply lookup_lt_Some. }
  split; [|split; [done|split]].
  - unfold __copyFrom. cbn [arrow].
    rewrite (bind_Return _ _ _ _ _ (deref_at _ _ _ Hfo)).
    by rewrite (bind_Return _ _ _ _ _ (deref_at _ _ _ Ho)).
  - intros a Ha. by apply list_lookup_insert_ne.
  - unfold operator_eq. rewrite (bind_Return _ _ _ _ _ (deref_at _ _ _ Ho')).
    destruct (decide (from = this)) as [->|Hne].
    + rewrite (bind_Return _ _ _ _ _ (deref_at _ _ _ Ho')).
      unfold ret. by rewrite bool_decide_eq_true_2.
    + assert (Hfo' : (<[this := o']> h) !! from = Some fo)
        by by rewrite list_lookup_insert_ne.
      rewrite (bind_Return _ _ _ _ _ (deref_at _ _ _ Hfo')).
      unfold ret. by rewrite bool_decide_eq_true_2.
Qed.

Lemma copyFrom_equal_witness :
  exists h',
    __copyFrom 1 (Some 2%nat) sample_heap = Return tt h'
    /\ h' !! 1%nat = Some {| _reference := Some sample_reference;
                             _requestHandler := Some 7%nat;
                             _batchRequestQueue := None |}
    /\ (forall a, a <> 1%nat -> h' !! a = sample_heap !! a)
    /\ operator_eq 1 2 h' = Return true h'.
Proof.
  exact (copyFrom_equal sample_heap 1 2 (fresh_proxy sample_oneway)
           (with_requestHandler (fresh_proxy sample_reference) (Some 7%nat))
           eq_refl eq_refl).
Defined.

(** ** Further properties: the comparators as orders *)

Lemma string_compare_refl s : String.compare s s = Eq.
Proof.
  pose proof (String.compare_antisym s s) as H.
  by destruct (String.compare s s).
Qed.

Lemma string_ltb_irrefl s : String.ltb s s = false.
Proof. unfold String.ltb. by rewrite string_compare_refl. Qed.

Lemma string_ltb_total s t : String.ltb s t = false -> String.ltb t s = false -> s = t.
Proof.
  unfold String.ltb. rewrite (String.compare_antisym t s).
  destruct (String.compare s t) eqn:Hc; try done.
  intros _ _. by apply String.compare_eq_iff.
Qed.

Lemma ascii_compare_lt_trans a b c :
  Ascii.compare a b = Lt -> Ascii.compare b c = Lt -> Ascii.compare a c = Lt.
Proof. unfold Ascii.compare. rewrite !N.compare_lt_iff. lia. Qed.

Lemma string_compare_lt_trans s1 s2 s3 :
  String.compare s1 s2 = Lt -> String.compare s2 s3 = Lt -> String.compare s1 s3 = Lt.
Proof.
  revert s2 s3. induction s1 as [|a s1 IH]; intros [|b s2] [|c s3]; cbn; try done.
  destruct (Ascii.compare a b) eqn:Hab; try done;
    destruct (Ascii.compare b c) eqn:Hbc; try done.
  - apply Ascii.compare_eq_iff in Hab, Hbc. subst.
    destruct (Ascii.compare c c) eqn:Hcc; try done; [by apply IH|].
    pose proof (Ascii.compare_antisym c c) as H. by rewrite Hcc in H.
  - apply Ascii.compare_eq_iff in Hab. subst. by rewrite Hbc.
  - apply Ascii.compare_eq_iff in Hbc. subst. by rewrite Hab.
  - by rewrite (ascii_compare_lt_trans _ _ _ Hab Hbc).
Qed.

Lemma string_ltb_trans s1 s2 s3 :
  String.ltb s1 s2 = true -> String.ltb s2 s3 = true -> String.ltb s1 s3 = true.
Proof.
  unfold String.ltb. intros H12 H23.
  destruct (String.compare s1 s2) eqn:C12; try done.
  destruct (String.compare s2 s3) eqn:C23; try done.
  by rewrite (string_compare_lt_trans _ _ _ C12 C23).
Qed.

Lemma proxyIdentityLess_at lt (h : Heap) a1 o1 r1 a2 o2 r2 :
  proxy_at h a1 o1 r1 -> proxy_at h a2 o2 r2 ->
  proxyIdentityLess lt (Some a1) (Some a2) h
  = Return (lt (getIdentity r1) (getIdentity r2)) h.
Proof.
  intros Hp1 Hp2. unfold proxyIdentityLess.
  rewrite (bind_Return _ _ _ _ _ (ice_getIdentity_at _ _ _ _ Hp1)).
  by rewrite (bind_Return _ _ _ _ _ (ice_getIdentity_at _ _ _ _ Hp2)).
Qed.

Lemma proxyIdentityEqual_at (h : Heap) a1 o1 r1 a2 o2 r2 :
  proxy_at h a1 o1 r1 -> proxy_at h a2 o2 r2 ->
  proxyIdentityEqual (Some a1) (Some a2) h
  = Return (bool_decide (getIdentity r1 = getIdentity r2)) h.
Proof.
  intros Hp1 Hp2. unfold proxyIdentityEqual.
  rewrite (bind_Return _ _ _ _ _ (ice_getIdentity_at _ _ _ _ Hp1)).
  by rewrite (bind_Return _ _ _ _ _ (ice_getIdentity_at _ _ _ _ Hp2)).
Qed.


Lemma proxyIdentityAndFacetEqual_at (h : Heap) a1 o1 r1 a2 o2 r2 :
  proxy_at h a1 o1 r1 -> proxy_at h a2 o2 r2 ->
  proxyIdentityAndFacetEqual (Some a1) (Some a2) h
  = Return (bool_decide (getIdentity r1 = getIdentity r2)
            && bool_decide (getFacet r1 = getFacet r2)) h.
Proof.
  intros Hp1 Hp2. unfold proxyIdentityAndFacetEqual.
  rewrite (bind_Return _ _ _ _ _ (ice_getIdentity_at _ _ _ _ Hp1)).
  rewrite (bind_Return _ _ _ _ _ (ice_getIdentity_at _ _ _ _ Hp2)).
  case_bool_decide; [|done].
  rewrite (bind_Return _ _ _ _ _ (ice_getFacet_at _ _ _ _ Hp1)).
  rewrite (bind_Return _ _ _ _ _ (ice_getFacet_at _ _ _ _ Hp2)).
  by case_bool_decide.
Qed.

Lemma Return_inj_bool (h : Heap) (b c : bool) :
  Return (S := Heap) b h = Return c h -> b = c.
Proof. by intros [=]. Qed.

(** X9: [proxyIdentityLess] orders the handles and agrees with
    [proxyIdentityEqual].  When [operator<] on identities is a strict total
    order, then on handles that are null or set up [proxyIdentityLess] is
    irreflexive and transitive, and [proxyIdentityEqual] answers true
    exactly when [proxyIdentityLess] answers false in both directions. *)
Theorem proxyIdentity_order (Identity_lt : Identity -> Identity -> bool)
    (h : Heap) (p q s : ObjectPrxPtr) :
  strict_total_order Identity_lt ->
  handle_ok h p -> handle_ok h q -> handle_ok h s ->
  answers (proxyIdentityLess Identity_lt p p) h false
  /\ (answers (proxyIdentityLess Identity_lt p q) h true ->
      answers (proxyIdentityLess Identity_lt q s) h true ->
      answers (proxyIdentityLess Identity_lt p s) h true)
  /\ (answers (proxyIdentityEqual p q) h true
      <-> answers (proxyIdentityLess Identity_lt p q) h false
          /\ answers (proxyIdentityLess Identity_lt q p) h false).
Proof.
  intros (Hirr & Htrans & Htotal) Hp Hq Hs. unfold answers.
  destruct p as [a1|], q as [a2|], s as [a3|]; cbn [handle_ok] in *;
    repeat match goal with
           | H : exists _ _, proxy_at _ _ _ _ |- _ => destruct H as (? & ? & H)
           end;
    repeat match goal with
           | H1 : proxy_at _ ?a _ _, H2 : proxy_at _ ?b _ _ |- _ =>
               progress (rewrite ?(proxyIdentityLess_at _ _ _ _ _ _ _ _ H1 H2),
                           ?(proxyIdentityEqual_at _ _ _ _ _ _ _ H1 H2))
           | H1 : proxy_at _ ?a _ _ |- _ =>
               progress (rewrite ?(proxyIdentityLess_at _ _ _ _ _ _ _ _ H1 H1),
                           ?(proxyIdentityEqual_at _ _ _ _ _ _ _ H1 H1))
           end;
    (split; [first [done | by rewrite Hirr]|split]);
    try (intros H12 H23; try done;
         apply Return_inj_bool in H12; try apply Return_inj_bool in H23;
         by erewrite Htrans);
    try (intros H12 H23; done);
    try (split; [intros E; apply Return_inj_bool, bool_decide_eq_true in E;
                 rewrite E; by rewrite Hirr
                |intros [L1 L2]; apply Return_inj_bool in L1, L2;
                 by rewrite bool_decide_eq_true_2 by by apply Htotal]);
    try (split; [done|by intros [? ?]]).
Qed.

Section Lexicographic.

Variable lt : Identity -> Identity -> bool.
Hypothesis lt_order : strict_total_order lt.




End Lexicographic.


Lemma sample_Identity_lt_order : strict_total_order sample_Identity_lt.
Proof.
  unfold strict_total_order, sample_Identity_lt. split; [|split].
  - intros i. rewrite !string_ltb_irrefl. by rewrite andb_false_r.
  - intros i j k.
    rewrite !orb_true_iff, !andb_true_iff, !bool_decide_eq_true.
    intros [H1|[E1 H1]] [H2|[E2 H2]].
    + left. by eapply string_ltb_trans.
    + left. by rewrite <- E2.
    + left. by rewrite E1.
    + right. split; [congruence|by eapply string_ltb_trans].
  - intros i j.
    rewrite !orb_false_iff, !andb_false_iff, !bool_decide_eq_false.
    intros [N1 C1] [N2 C2].
    assert (name i = name j) as En by by apply string_ltb_total.
    assert (category i = category j) as Ec.
    { apply string_ltb_total.
      - by destruct C1.
      - destruct C2 as [C2|C2]; [by destruct C2|done]. }
    destruct i, j; cbn in *. by subst.
Qed.

Lemma facet_heap_0 : handle_ok facet_heap (Some 0%nat).
Proof. eexists _, _. split; reflexivity. Defined.

Lemma facet_heap_1 : handle_ok facet_heap (Some 1%nat).
Proof. eexists _, _. split; reflexivity. Defined.

Lemma proxyIdentity_order_witness :
  answers (proxyIdentityLess sample_Identity_lt (Some 0%nat) (Some 0%nat)) facet_heap false
  /\ (answers (proxyIdentityEqual (Some 0%nat) (Some 1%nat)) facet_heap true
      <-> answers (proxyIdentityLess sample_Identity_lt (Some 0%nat) (Some 1%nat))
            facet_heap false
          /\ answers (proxyIdentityLess sample_Identity_lt (Some 1%nat) (Some 0%nat))
               facet_heap false).
Proof.
  destruct (proxyIdentity_order sample_Identity_lt facet_heap (Some 0%nat) (Some 1%nat)
              None sample_Identity_lt_order facet_heap_0 facet_heap_1 I)
    as (A & _ & B).
  split; [exact A|exact B].
Defined.


(** ** Further properties: derivation and comparison *)

Lemma changeFacet_facet r f : getFacet (changeFacet r f) = f.
Proof. unfold changeFacet. case_bool_decide; [done|]. by destruct r. Qed.

Lemma changeFacet_identity r f : getIdentity (changeFacet r f) = getIdentity r.
Proof. unfold changeFacet. case_bool_decide; [done|]. by destruct r. Qed.

(** X11: a proxy and its derivation for another facet.  When [ice_facet]
    is called with a facet that is not the proxy's, the proxy it returns
    has that facet; [proxyIdentityEqual] finds the two proxies equal,
    [proxyIdentityAndFacetEqual] and [operator==] find them different. *)
Theorem facet_derivation_compared NDEBUG (h : Heap) this o r f :
  proxy_at h this o r ->
  f <> getFacet r ->
  exists p h',
    ice_facet NDEBUG this f h = Return (Some p) h'
    /\ ice_getFacet p h' = Return f h'
    /\ proxyIdentityEqual (Some this) (Some p) h' = Return true h'
    /\ proxyIdentityAndFacetEqual (Some this) (Some p) h' = Return false h'
    /\ operator_eq this p h' = Return false h'.
Proof.
  intros Hp Hne. exists (length h), (h ++ [fresh_proxy (changeFacet r f)]).
  assert (Hp1 : proxy_at (h ++ [fresh_proxy (changeFacet r f)]) this o r).
  { destruct Hp as [Ho Hr]. split; [by apply lookup_app_l_Some|done]. }
  assert (Hp2 : proxy_at (h ++ [fresh_proxy (changeFacet r f)]) (length h)
                  (fresh_proxy (changeFacet r f)) (changeFacet r f)).
  { split; [by apply list_lookup_middle|done]. }
  split; [|split; [|split; [|split]]].
  - unfold ice_facet. run_reference Hp. rewrite bool_decide_eq_false_2 by done.
    apply allocate_setup.
  - rewrite (ice_getFacet_at _ _ _ _ Hp2). by rewrite changeFacet_facet.
  - rewrite (proxyIdentityEqual_at _ _ _ _ _ _ _ Hp1 Hp2).
    by rewrite changeFacet_identity, bool_decide_eq_true_2.
  - rewrite (proxyIdentityAndFacetEqual_at _ _ _ _ _ _ _ Hp1 Hp2).
    rewrite changeFacet_identity, changeFacet_facet.
    rewrite bool_decide_eq_true_2 by done.
    by rewrite bool_decide_eq_false_2 by done.
  - unfold operator_eq. destruct Hp1 as [Ho1 Hr1], Hp2 as [Ho2 Hr2].
    rewrite (bind_Return _ _ _ _ _ (deref_at _ _ _ Ho1)).
    rewrite (bind_Return _ _ _ _ _ (deref_at _ _ _ Ho2)).
    unfold ret. rewrite bool_decide_eq_false_2; [done|].
    rewrite Hr1, Hr2. intros [= Heq].
    apply Hne. by rewrite Heq, changeFacet_facet.
Qed.

Lemma facet_derivation_compared_witness :
  exists p h',
    ice_facet true 0 "admin" sample_heap = Return (Some p) h'
    /\ ice_getFacet p h' = Return "admin" h'
    /\ proxyIdentityEqual (Some 0%nat) (Some p) h' = Return true h'
    /\ proxyIdentityAndFacetEqual (Some 0%nat) (Some p) h' = Return false h'
    /\ operator_eq 0 p h' = Return false h'.
Proof.
  refine (facet_derivation_compared true sample_heap 0 _ _ "admin" sample_proxy_0 _).
  discriminate.
Defined.

(** ** Further properties: completion *)

(** X12: the completion functions wrap nothing but user exceptions.  For
    a result that passes [__check], the exception [__wait] throws is raised
    unchanged by [end_ice_isA], [end_ice_id], [end_ice_ids], [__end] and
    [end_ice_invoke]; and when [__wait] returns false and
    [__throwUserException] throws an exception that is not a user
    exception, [end_ice_isA], [end_ice_id] and [end_ice_ids] raise that
    exception unchanged. *)
Theorem completion_failures_unchanged
    (check : AsyncResultPtr -> nat -> string -> option Exception)
    (read_bool : InputStream -> Exception + bool)
    (read_string : InputStream -> Exception + string)
    (read_stringSeq : InputStream -> Exception + list string)
    (h : Heap) this (res : AsyncResult) (e : Exception) :
  (__wait res = inl e ->
   (check (Some res) this ice_isA_name = None ->
    Cpp98.end_ice_isA check read_bool this (Some res) h = Raise e h)
   /\ (check (Some res) this ice_id_name = None ->
       Cpp98.end_ice_id check read_string this (Some res) h = Raise e h)
   /\ (check (Some res) this ice_ids_name = None ->
       Cpp98.end_ice_ids check read_stringSeq this (Some res) h = Raise e h)
   /\ (forall operation, check (Some res) this operation = None ->
         Cpp98.__end check this (Some res) operation h = Raise e h)
   /\ (forall outEncaps, check (Some res) this ice_invoke_name = None ->
         Cpp98.end_ice_invoke check this outEncaps (Some res) h = Raise e h))
  /\ (__wait res = inr false -> __throwUserException res = e ->
      (forall id, e <> UserException id) ->
      (check (Some res) this ice_isA_name = None ->
       Cpp98.end_ice_isA check read_bool this (Some res) h = Raise e h)
      /\ (check (Some res) this ice_id_name = None ->
          Cpp98.end_ice_id check read_string this (Some res) h = Raise e h)
      /\ (check (Some res) this ice_ids_name = None ->
          Cpp98.end_ice_ids check read_stringSeq this (Some res) h = Raise e h)).
Proof.
  split.
  - intros Hwait.
    assert (Hw : arrow_result (S := Heap) (Some res) (fun r => call (__wait r)) h
                 = Raise e h).
    { cbn [arrow_result]. by rewrite Hwait. }
    repeat split; intros.
    + unfold Cpp98.end_ice_isA.
      rewrite (bind_Return _ _ _ _ _ (check_passes _ _ _ _ _ H)).
      by rewrite (bind_Raise _ _ _ _ _ Hw).
    + unfold Cpp98.end_ice_id.
      rewrite (bind_Return _ _ _ _ _ (check_passes _ _ _ _ _ H)).
      by rewrite (bind_Raise _ _ _ _ _ Hw).
    + unfold Cpp98.end_ice_ids.
      rewrite (bind_Return _ _ _ _ _ (check_passes _ _ _ _ _ H)).
      by rewrite (bind_Raise _ _ _ _ _ Hw).
    + unfold Cpp98.__end.
      rewrite (bind_Return _ _ _ _ _ (check_passes _ _ _ _ _ H)).
      by rewrite (bind_Raise _ _ _ _ _ Hw).
    + unfold Cpp98.end_ice_invoke.
      rewrite (bind_Return _ _ _ _ _ (check_passes _ _ _ _ _ H)).
      by rewrite (bind_Raise _ _ _ _ _ Hw).
  - intros Hwait Hthrow Hnot.
    assert (Hw : arrow_result (S := Heap) (Some res) (fun r => call (__wait r)) h
                 = Return false h).
    { cbn [arrow_result]. by rewrite Hwait. }
    assert (Hre : try_catch
                    (arrow_result (Some res)
                       (fun r => throw (A := unit) (__throwUserException r)))
                    Cpp98.wrap_UserException h
                  = Raise e h).
    { unfold try_catch. cbn [arrow_result]. unfold throw. rewrite Hthrow.
      destruct e; try done. by destruct (Hnot ice_id). }
    repeat split; intros.
    + unfold Cpp98.end_ice_isA.
      rewrite (bind_Return _ _ _ _ _ (check_passes _ _ _ _ _ H)).
      rewrite (bind_Return _ _ _ _ _ Hw). cbn [negb].
      by rewrite (bind_Raise _ _ _ _ _ Hre).
    + unfold Cpp98.end_ice_id.
      rewrite (bind_Return _ _ _ _ _ (check_passes _ _ _ _ _ H)).
      rewrite (bind_Return _ _ _ _ _ Hw). cbn [negb].
      by rewrite (bind_Raise _ _ _ _ _ Hre).
    + unfold Cpp98.end_ice_ids.
      rewrite (bind_Return _ _ _ _ _ (check_passes _ _ _ _ _ H)).
      rewrite (bind_Return _ _ _ _ _ Hw). cbn [negb].
      by rewrite (bind_Raise _ _ _ _ _ Hre).
Qed.

(** X13: on a proxy that is not two-way [__end] reads nothing of the
    reply.  For a result that passes [__check] and whose [__wait] returns,
    [__end] and [end_ice_ping] return normally and leave the heap as it is,
    whether [__wait] answered true or false: no UnknownUserException is
    raised and [__readEmptyParams] is not called. *)
Theorem end_not_twoway
    (check : AsyncResultPtr -> nat -> string -> option Exception)
    (h : Heap) this o r (res : AsyncResult) (ok : bool) :
  proxy_at h this o r ->
  getMode r <> ModeTwoway ->
  __wait res = inr ok ->
  (forall operation, check (Some res) this operation = None ->
     Cpp98.__end check this (Some res) operation h = Return tt h)
  /\ (check (Some res) this ice_ping_name = None ->
      Cpp98.end_ice_ping check this (Some res) h = Return tt h).
Proof.
  intros Hp Hmode Hwait.
  assert (Hend : forall operation, check (Some res) this operation = None ->
            Cpp98.__end check this (Some res) operation h = Return tt h).
  { intros operation Hcheck. unfold Cpp98.__end.
    rewrite (bind_Return _ _ _ _ _ (check_passes _ _ _ _ _ Hcheck)).
    erewrite bind_Return; cycle 1.
    { cbn [arrow_result]. by rewrite Hwait. }
    run_reference Hp. by rewrite bool_decide_eq_false_2. }
  split; [done|]. intros Hcheck. unfold Cpp98.end_ice_ping. by apply Hend.
Qed.

Lemma completion_failures_unchanged_witness :
  Cpp98.end_ice_isA sample_check sample_read_bool 0
    (Some (sample_failed_result 0 "ice_isA")) sample_heap
  = Raise (Local ConnectTimeoutException) sample_heap
  /\ Cpp98.end_ice_invoke sample_check 0 []
       (Some (sample_failed_result 0 "ice_invoke")) sample_heap
     = Raise (Local ConnectTimeoutException) sample_heap.
Proof.
  destruct (proj1 (completion_failures_unchanged sample_check sample_read_bool
                     sample_read_string sample_read_stringSeq sample_heap 0
                     (sample_failed_result 0 "ice_isA") _) eq_refl) as (A & _).
  destruct (proj1 (completion_failures_unchanged sample_check sample_read_bool
                     sample_read_string sample_read_stringSeq sample_heap 0
                     (sample_failed_result 0 "ice_invoke") _) eq_refl)
    as (_ & _ & _ & _ & B).
  split; [exact (A eq_refl)|exact (B [] eq_refl)].
Defined.

Lemma end_not_twoway_witness :
  Cpp98.end_ice_ping sample_check 1 (Some (sample_unread_reply 1 "ice_ping")) sample_heap
  = Return tt sample_heap.
Proof.
  exact (proj2 (end_not_twoway sample_check sample_heap 1 _ _
                  (sample_unread_reply 1 "ice_ping") false
                  sample_proxy_1 sample_oneway_mode eq_refl) eq_refl).
Defined.

(** ** Further properties: built-in operations and retry *)

Lemma checkTwowayOnly11_passes (h : Heap) this o r name :
  proxy_at h this o r -> getMode r = ModeTwoway ->
  Cpp11.__checkTwowayOnly this name h = Return tt h.
Proof.
  intros Hp Hmode. unfold Cpp11.__checkTwowayOnly.
  rewrite (bind_Return _ _ _ _ _ (ice_isTwoway_at _ _ _ _ Hp)).
  by rewrite bool_decide_eq_true_2.
Qed.

(** A local exception of a Nonmutating request is handed to the policy. *)
Lemma handleException_nonmutating policy (h : Heap) this o r le handler sent cnt :
  proxy_at h this o r ->
  exists h', __updateRequestHandler this handler None h = Return tt h'
             /\ __handleException policy this (Local le) handler Nonmutating sent (h, cnt)
                = delegated (Local le) h' (policy le r cnt).
Proof.
  intros Hp.
  destruct (updateRequestHandler_returns _ _ _ _ handler None Hp)
    as (h' & o' & Hupd & Hp').
  exists h'. split; [done|]. unfold __handleException.
  erewrite bind_Return; cycle 1.
  { unfold on_fst. cbn [fst snd]. by rewrite Hupd. }
  cbv zeta. cbn [cast_LocalException].
  rewrite bool_decide_eq_true_2 by by eexists.
  rewrite (bool_decide_eq_true_2 (Nonmutating = Nonmutating)) by done.
  rewrite orb_true_r. cbn [andb orb].
  rewrite try_catch_policy. cbn [deref_cast].
  unfold bind at 1. unfold ret at 1.
  unfold bind at 1. unfold on_fst at 1. cbn [fst snd].
  rewrite (reference_at _ _ _ _ Hp').
  unfold on_snd. cbn [fst snd].
  destruct (policy le r cnt) as [d c|e c|]; cbn; try done.
  by destruct e as [| | |[]].
Qed.

(** X14: the built-in operations are always eligible for retry.  On a
    two-way proxy [__begin_ice_isA], [__begin_ice_id], [__begin_ice_ids]
    and [__begin_ice_ping] of the C++98 mapping, and [__ice_isA],
    [__ice_id], [__ice_ids] and [__ice_ping] of the C++11 mapping, pass the
    check and submit a request whose mode is Nonmutating; and for mode
    Nonmutating [__handleException] hands every local exception to the
    retry policy, whether the request was sent or not. *)
Theorem builtin_operations_retried
    (CallbackOutgoing : nat -> string -> CallbackBasePtr -> LocalObjectPtr -> bool ->
                        OutgoingRequest -> Comp Heap AsyncResultPtr)
    (OutgoingAsync : Type)
    (OutgoingAsync_invoke : OutgoingAsync -> OutgoingRequest -> Comp Heap unit)
    (policy : LocalException -> Reference -> Comp Z Z)
    (h : Heap) this o r :
  proxy_at h this o r -> getMode r = ModeTwoway ->
  (forall typeId ctx del cookie sync outAsync,
     exists req,
       req_mode req = Nonmutating
       /\ Cpp98.__begin_ice_isA CallbackOutgoing this typeId ctx del cookie sync h
          = CallbackOutgoing this ice_isA_name del cookie sync req h
       /\ Cpp11.__ice_isA OutgoingAsync OutgoingAsync_invoke this outAsync typeId ctx h
          = OutgoingAsync_invoke outAsync req h)
  /\ (forall ctx del cookie sync outAsync,
        exists req,
          req_mode req = Nonmutating
          /\ Cpp98.__begin_ice_id CallbackOutgoing this ctx del cookie sync h
             = CallbackOutgoing this ice_id_name del cookie sync req h
          /\ Cpp11.__ice_id OutgoingAsync OutgoingAsync_invoke this outAsync ctx h
             = OutgoingAsync_invoke outAsync req h)
  /\ (forall ctx del cookie sync outAsync,
        exists req,
          req_mode req = Nonmutating
          /\ Cpp98.__begin_ice_ids CallbackOutgoing this ctx del cookie sync h
             = CallbackOutgoing this ice_ids_name del cookie sync req h
          /\ Cpp11.__ice_ids OutgoingAsync OutgoingAsync_invoke this outAsync ctx h
             = OutgoingAsync_invoke outAsync req h)
  /\ (forall ctx del cookie sync outAsync,
        exists req,
          req_mode req = Nonmutating
          /\ Cpp98.__begin_ice_ping CallbackOutgoing this ctx del cookie sync h
             = CallbackOutgoing this ice_ping_name del cookie sync req h
          /\ Cpp11.__ice_ping OutgoingAsync OutgoingAsync_invoke this outAsync ctx h
             = OutgoingAsync_invoke outAsync req h)
  /\ (forall le handler sent cnt,
        exists h',
          __handleException policy this (Local le) handler Nonmutating sent (h, cnt)
          = delegated (Local le) h' (policy le r cnt)).
Proof.
  intros Hp Hmode.
  pose proof (fun name sync => checkTwowayOnly98_passes h this o r name sync Hp Hmode)
    as H98.
  pose proof (fun name => checkTwowayOnly11_passes h this o r name Hp Hmode) as H11.
  split; [|split; [|split; [|split]]].
  - intros. eexists. split; [|split].
    2:{ unfold Cpp98.__begin_ice_isA. rewrite (bind_Return _ _ _ _ _ (H98 _ _)).
        reflexivity. }
    + reflexivity.
    + unfold Cpp11.__ice_isA. by rewrite (bind_Return _ _ _ _ _ (H11 _)).
  - intros. eexists. split; [|split].
    2:{ unfold Cpp98.__begin_ice_id. rewrite (bind_Return _ _ _ _ _ (H98 _ _)).
        reflexivity. }
    + reflexivity.
    + unfold Cpp11.__ice_id. by rewrite (bind_Return _ _ _ _ _ (H11 _)).
  - intros. eexists. split; [|split].
    2:{ unfold Cpp98.__begin_ice_ids. rewrite (bind_Return _ _ _ _ _ (H98 _ _)).
        reflexivity. }
    + reflexivity.
    + unfold Cpp11.__ice_ids. by rewrite (bind_Return _ _ _ _ _ (H11 _)).
  - intros. eexists. split; [|split].
    2:{ unfold Cpp98.__begin_ice_ping. reflexivity. }
    + reflexivity.
    + reflexivity.
  - intros le handler sent cnt.
    destruct (handleException_nonmutating policy h this o r le handler sent cnt Hp)
      as (h' & _ & Hrun).
    by exists h'.
Qed.

Lemma builtin_operations_retried_witness :
  exists h',
    __handleException sample_policy 0 (Local ConnectTimeoutException) None
      Nonmutating true (sample_heap, 0)
    = delegated (Local ConnectTimeoutException) h'
        (sample_policy ConnectTimeoutException sample_reference 0).
Proof.
  exact (proj2 (proj2 (proj2 (proj2
           (builtin_operations_retried sample_CallbackOutgoing bool (fun _ _ => ret tt)
              sample_policy sample_heap 0 _ _ sample_proxy_0 eq_refl))))
           ConnectTimeoutException None true 0).
Defined.
